(** * Themis: an incremental OpenAPI document builder

    A shallow embedding of the [Themis] class (document model, mutation
    surface, component registry and persistence synchronizer) together with
    the properties its specification states about it.

    Layout:
    - [JS]      runtime values and the JavaScript operators the class uses;
    - [Engine]  the deep-merge engine;
    - [Doc]     the [Themis] record, the world it runs in and its methods;
    - [Run]     call sequences and the event loop;
    - [Posix]   a concrete platform for the examples;
    - [Registry], [Singular], [Construction], [Merging], [Reloading]:
                properties of single calls;
    - [Frame]   what a method leaves alone;
    - [Persistence], [Tags]: properties of call sequences;
    - [Literal], [Catalog], [Builders]: object literals and the catalog of
                schema, content and parameter builders;
    - [Bootstrap], [Safety], [Surface], [RoundTrips]: configuration,
                bootstrap, flushes and reloads of the document;
    - [Misc]    the search for the project root. *)

From Stdlib Require Import String Ascii List ZArith Bool Lia.
From Stdlib Require Import DecimalString.
Import ListNotations.
Open Scope string_scope.

(* ===================================================================== *)
(** ** Runtime values                                                     *)
(* ===================================================================== *)

Module JS.

#[local] Set Warnings "-register-all".

(** A document fragment is a JSON-like tree.  Objects keep their keys in
    insertion order, as JavaScript objects do.  Numbers are kept as
    integer literals: the class never computes with them. *)
Inductive value : Type :=
| VUndefined
| VNull
| VBool (b : bool)
| VNum (n : Z)
| VStr (s : string)
| VArr (items : list value)
| VObj (fields : list (string * value)).

(** [v === undefined || v === null] *)
Definition nullish (v : value) : bool :=
  match v with
  | VUndefined | VNull => true
  | _ => false
  end.

(** [a ?? b] *)
Definition coalesce (a b : value) : value :=
  if nullish a then b else a.

(** [!!v], also [Boolean(v)] *)
Definition truthy (v : value) : bool :=
  match v with
  | VUndefined | VNull => false
  | VBool b => b
  | VNum n => negb (Z.eqb n 0)
  | VStr s => negb (String.eqb s "")
  | VArr _ | VObj _ => true
  end.

Fixpoint lookup (k : string) (fs : list (string * value)) : option value :=
  match fs with
  | [] => None
  | (k', v) :: rest => if String.eqb k' k then Some v else lookup k rest
  end.

(** [o[k]] on a non-nullish base: own properties of plain objects only
    (inherited properties and the [length] of arrays and strings are not
    modelled).  Callers that may reach a nullish base guard it themselves. *)
Definition get (o : value) (k : string) : value :=
  match o with
  | VObj fs => match lookup k fs with Some v => v | None => VUndefined end
  | _ => VUndefined
  end.

(** [o?.[k]] *)
Definition get_opt (o : value) (k : string) : value :=
  if nullish o then VUndefined else get o k.

(** Property write on the field list of an object: an existing key keeps
    its position, a new key is appended. *)
Fixpoint assign (k : string) (v : value) (fs : list (string * value))
  : list (string * value) :=
  match fs with
  | [] => [(k, v)]
  | (k', v') :: rest =>
      if String.eqb k' k then (k, v) :: rest else (k', v') :: assign k v rest
  end.

(** [o[k] = v] for a plain-object base.  Other bases are outside the
    declared types of the class; they are left as they are. *)
Definition set (o : value) (k : string) (v : value) : value :=
  match o with
  | VObj fs => VObj (assign k v fs)
  | _ => o
  end.

Definition join (sep : string) (parts : list string) : string :=
  match parts with
  | [] => ""
  | p :: ps => fold_left (fun acc q => acc ++ sep ++ q) ps p
  end.

(** Template-literal interpolation [`${v}`]. *)
Fixpoint to_string (v : value) : string :=
  match v with
  | VUndefined => "undefined"
  | VNull => "null"
  | VBool true => "true"
  | VBool false => "false"
  | VNum n => NilZero.string_of_int (Z.to_int n)
  | VStr s => s
  | VArr items =>
      join "," (map (fun x => if nullish x then "" else to_string x) items)
  | VObj _ => "[object Object]"
  end.

(** [a !== b] where [b] is a string constant. *)
Definition strict_neq_str (a : value) (b : string) : bool :=
  match a with
  | VStr s => negb (String.eqb s b)
  | _ => true
  end.

End JS.
Import JS.

Notation "a ?? b" := (coalesce a b) (at level 45, right associativity).

(* ===================================================================== *)
(** ** Merge engine                                                       *)
(* ===================================================================== *)

Module Engine.

(** Modelled from the spec: the default export of the [ts-deepmerge]
    package, which the class imports as [merge] and whose code is not part
    of the sources.  The contract followed is section 4.1:
    - both operands keyed maps: merge key by key; keys of one side only pass
      through, keys of both recurse;
    - both operands ordered sequences: existing followed by incoming;
    - differing shapes, or a scalar on either side: incoming wins. *)
Fixpoint merge (existing incoming : value) {struct incoming} : value :=
  match existing, incoming with
  | VObj xs, VObj ys =>
      VObj ((fix into (acc ys : list (string * value)) {struct ys} :=
               match ys with
               | [] => acc
               | (k, v) :: ys' =>
                   into (assign k (match lookup k acc with
                                   | Some old => merge old v
                                   | None => v
                                   end) acc) ys'
               end) xs ys)
  | VArr xs, VArr ys => VArr (xs ++ ys)
  | _, _ => incoming
  end.

End Engine.
Import Engine.

(* ===================================================================== *)
(** ** The document, its world and its methods                            *)
(* ===================================================================== *)

Module Doc.

(** The fields of a [Themis] instance.  TypeScript types are erased at run
    time, so each document field holds a runtime value. *)
Record Themis : Type := mkThemis {
  openapi : value;
  info : value;
  servers : value;
  paths : value;
  components : value;
  security : value;
  tags : value;
  externalDocs : value;
  apiVersion : string;
  schemaFile : value
}.

Definition with_openapi (v : value) (t : Themis) : Themis :=
  mkThemis v (info t) (servers t) (paths t) (components t) (security t)
           (tags t) (externalDocs t) (apiVersion t) (schemaFile t).
Definition with_info (v : value) (t : Themis) : Themis :=
  mkThemis (openapi t) v (servers t) (paths t) (components t) (security t)
           (tags t) (externalDocs t) (apiVersion t) (schemaFile t).
Definition with_servers (v : value) (t : Themis) : Themis :=
  mkThemis (openapi t) (info t) v (paths t) (components t) (security t)
           (tags t) (externalDocs t) (apiVersion t) (schemaFile t).
Definition with_paths (v : value) (t : Themis) : Themis :=
  mkThemis (openapi t) (info t) (servers t) v (components t) (security t)
           (tags t) (externalDocs t) (apiVersion t) (schemaFile t).
Definition with_components (v : value) (t : Themis) : Themis :=
  mkThemis (openapi t) (info t) (servers t) (paths t) v (security t)
           (tags t) (externalDocs t) (apiVersion t) (schemaFile t).
Definition with_security (v : value) (t : Themis) : Themis :=
  mkThemis (openapi t) (info t) (servers t) (paths t) (components t) v
           (tags t) (externalDocs t) (apiVersion t) (schemaFile t).
Definition with_tags (v : value) (t : Themis) : Themis :=
  mkThemis (openapi t) (info t) (servers t) (paths t) (components t)
           (security t) v (externalDocs t) (apiVersion t) (schemaFile t).
Definition with_externalDocs (v : value) (t : Themis) : Themis :=
  mkThemis (openapi t) (info t) (servers t) (paths t) (components t)
           (security t) (tags t) v (apiVersion t) (schemaFile t).
Definition with_apiVersion (s : string) (t : Themis) : Themis :=
  mkThemis (openapi t) (info t) (servers t) (paths t) (components t)
           (security t) (tags t) (externalDocs t) s (schemaFile t).
Definition with_schemaFile (v : value) (t : Themis) : Themis :=
  mkThemis (openapi t) (info t) (servers t) (paths t) (components t)
           (security t) (tags t) (externalDocs t) (apiVersion t) v.

(** *** Effects *)

Inductive severity : Type := SevError | SevInfo | SevWarn | SevSuccess.

(** The two completion callbacks handed to [fs.writeFile]: the one of
    [prepareFiles], which closes over the resolved path, and the one of
    [syncWrap], which only logs. *)
Inductive callback : Type :=
| CreateCb (schemaFilePath apiVersion : string)
| SyncCb (apiVersion : string).

Inductive effect : Type :=
| ConsoleLog (sev : severity) (tag message : string)
| MkdirSync (path : string)
| WriteFile (path : string) (data : value) (cb : callback).

(** What a method can see and change: the instance, the effects performed
    so far (oldest first) and the completion callbacks not yet run. *)
Record World : Type := mkWorld {
  this : Themis;
  io : list effect;
  pending : list callback
}.

(** What the platform answers.  [require] is [None] when loading throws;
    [mkdirSync_ok] is [false] when creating the directory throws.
    [projectRoot] is the result of
    [getProjectRoot(getPathToAnyCallerInModule())]. *)
Record Env : Type := mkEnv {
  projectRoot : string;
  require : string -> option value;
  extname : string -> string;
  existsSync : string -> bool;
  mkdirSync_ok : string -> bool
}.

(** *** A state monad over [World] *)

Definition M (A : Type) : Type := World -> A * World.

Definition ret {A} (a : A) : M A := fun w => (a, w).
Definition bind {A B} (m : M A) (k : A -> M B) : M B :=
  fun w => let (a, w') := m w in k a w'.

Notation "x <- c1 ;; c2" := (bind c1 (fun x => c2))
  (at level 61, c1 at next level, right associativity).
Notation "c1 ;; c2" := (bind c1 (fun _ => c2))
  (at level 61, right associativity).

Definition gets {A} (f : Themis -> A) : M A := fun w => (f (this w), w).
Definition update (f : Themis -> Themis) : M unit :=
  fun w => (tt, mkWorld (f (this w)) (io w) (pending w)).
Definition emit (e : effect) : M unit :=
  fun w => (tt, mkWorld (this w) (io w ++ [e]) (pending w)).
Definition defer (cb : callback) : M unit :=
  fun w => (tt, mkWorld (this w) (io w) (pending w ++ [cb])).
Definition exec (m : M unit) (w : World) : World := snd (m w).

(** [fs.writeFile(path, data, cb)]: the write is dispatched and its
    callback is left to run later. *)
Definition fs_writeFile (path : string) (data : value) (cb : callback)
  : M unit :=
  emit (WriteFile path data cb) ;; defer cb.

(** *** Logging sink *)

Module Log.
Definition e (message tag : string) : M unit :=
  emit (ConsoleLog SevError ("[" ++ tag ++ "]:") message).
Definition i (message tag : string) : M unit :=
  emit (ConsoleLog SevInfo ("[" ++ tag ++ "]:") message).
Definition w (message tag : string) : M unit :=
  emit (ConsoleLog SevWarn ("[" ++ tag ++ "]:") message).
Definition s (message tag : string) : M unit :=
  emit (ConsoleLog SevSuccess ("[" ++ tag ++ "]:") message).
End Log.

Definition LOG_TAG : string := "THEMIS".

(** A word between double quotes, as the log messages print it. *)
Definition quoted (s : string) : string :=
  String (ascii_of_nat 34) (s ++ String (ascii_of_nat 34) EmptyString).

Definition defaultConfig : value :=
  VObj [("docsDir", VStr "themis"); ("schemaFilePrefix", VStr "spec.")].

(** *** Persistence *)

(** [Themis.shaveDownToSpec]: the publishable fields, in the order of the
    pick list. *)
Definition shaveDownToSpec (spec : Themis) : value :=
  VObj [("openapi", openapi spec);
        ("info", info spec);
        ("servers", servers spec);
        ("paths", paths spec);
        ("components", components spec);
        ("security", security spec);
        ("tags", tags spec);
        ("externalDocs", externalDocs spec)].

(** [syncWrap]: run the callback, then flush.  The payload of the write is
    kept as the tree handed to [JSON.stringify]; the text encoding is not
    modelled. *)
Definition syncWrap (callback : option (M unit)) : M unit :=
  match callback with Some cb => cb | None => ret tt end ;;
  converted <- gets shaveDownToSpec ;;
  apiVersion <- gets apiVersion ;;
  schemaFile <- gets schemaFile ;;
  if truthy schemaFile
  then fs_writeFile (to_string schemaFile) converted (SyncCb apiVersion)
  else Log.i ("Sync for specification " ++ apiVersion ++ " skipped.") LOG_TAG.

(** The completion callbacks, run by the event loop with the outcome of
    the write ([err = true]: the write failed). *)
Definition run_callback (cb : callback) (err : bool) : M unit :=
  match cb with
  | CreateCb schemaFilePath apiVersion =>
      if err
      then Log.e ("Could not create " ++ apiVersion ++ " specification file.")
                 LOG_TAG
      else update (with_schemaFile (VStr schemaFilePath)) ;;
           Log.s ("Created " ++ apiVersion ++ " specification file.") LOG_TAG
  | SyncCb apiVersion =>
      Log.i ("Syncing specification " ++ apiVersion ++ "...") LOG_TAG ;;
      if err
      then Log.e ("Sync failed for specification " ++ apiVersion) LOG_TAG
      else Log.s ("Sync complete for specification " ++ apiVersion ++ ".")
                 LOG_TAG
  end.

(** [loadFromFile]: the [try] block reads the eight properties of the
    loaded module only after [require] returned; reading a property of
    [null] throws before the first assignment.  Every throw lands in the
    [catch], which logs. *)
Definition loadFromFile (env : Env) : M unit :=
  schemaFile <- gets schemaFile ;;
  apiVersion <- gets apiVersion ;;
  match require env (to_string schemaFile) with
  | Some persistedSpec =>
      if nullish persistedSpec
      then Log.e ("Could not parse specification file for " ++ apiVersion
                  ++ ".") LOG_TAG
      else
        update (with_servers (get persistedSpec "servers")) ;;
        update (with_externalDocs (get persistedSpec "externalDocs")) ;;
        update (with_security (get persistedSpec "security")) ;;
        update (with_tags (get persistedSpec "tags")) ;;
        update (with_components (get persistedSpec "components")) ;;
        update (with_openapi (get persistedSpec "openapi")) ;;
        update (with_paths (get persistedSpec "paths")) ;;
        update (with_info (get persistedSpec "info"))
  | None =>
      Log.e ("Could not parse specification file for " ++ apiVersion ++ ".")
            LOG_TAG
  end.

(** [checkAndConstructConfig]: [None] when reading [config.docsDir] throws
    because [config] is nullish. *)
Definition checkAndConstructConfig (config : value) : option value :=
  if nullish config then None
  else
    let spread := match config with VObj fs => fs | _ => [] end in
    let docsDir :=
      if truthy (get config "docsDir")
         && strict_neq_str (get config "docsDir")
                           (to_string (get defaultConfig "docsDir"))
      then get config "docsDir" else get defaultConfig "docsDir" in
    let schemaFilePrefix :=
      if truthy (get config "schemaFilePrefix")
         && strict_neq_str (get config "schemaFilePrefix")
                           (to_string (get defaultConfig "schemaFilePrefix"))
      then get config "schemaFilePrefix"
      else get defaultConfig "schemaFilePrefix" in
    Some (VObj (assign "schemaFilePrefix" schemaFilePrefix
                  (assign "docsDir" docsDir spread))).

Definition schemaFilePath_of (apiVersion projectRoot : string)
  (config : value) : string :=
  projectRoot ++ "/" ++ to_string (get config "docsDir") ++ "/"
  ++ to_string (get config "schemaFilePrefix") ++ apiVersion ++ ".json".

(** [prepareFiles]: [None] when [fs.mkdirSync] throws. *)
Definition prepareFiles (env : Env) (apiVersion projectRoot : string)
  (config : value) (w0 : World) : option World :=
  let schemaFilePath := schemaFilePath_of apiVersion projectRoot config in
  let docs := projectRoot ++ "/" ++ to_string (get config "docsDir") ++ "/" in
  let w1 :=
    exec (if String.eqb (extname env schemaFilePath) ".json"
          then update (with_schemaFile (VStr schemaFilePath))
          else update (with_schemaFile (VStr "")) ;;
               Log.e ("Invalid file type was provided for " ++ apiVersion
                      ++ ".") LOG_TAG) w0 in
  let w2 :=
    if negb (existsSync env docs)
    then
      let w := exec (Log.i "docs/api directory does not exist." LOG_TAG ;;
                     Log.i ("Creating " ++ quoted "api" ++ " directory in "
                            ++ quoted "docs" ++ ".") LOG_TAG ;;
                     emit (MkdirSync docs)) w1 in
      if mkdirSync_ok env docs
      then Some (exec (Log.s ("Created " ++ quoted "api" ++ " directory in "
                              ++ quoted "docs" ++ ".") LOG_TAG) w)
      else None
    else Some w1 in
  match w2 with
  | None => None
  | Some w2 =>
      Some (exec
        (schemaFile <- gets schemaFile ;;
         if (negb (strict_neq_str schemaFile ""))
            || negb (existsSync env (to_string schemaFile))
         then
           Log.e (apiVersion ++ " specification file not found.") LOG_TAG ;;
           Log.i ("Creating specification file for " ++ apiVersion ++ "...")
                 LOG_TAG ;;
           fs_writeFile schemaFilePath (VObj [])
                        (CreateCb schemaFilePath apiVersion)
         else ret tt) w2)
  end.

(** The instance after the field initialisers and before the constructor
    body. *)
Definition fresh : Themis :=
  mkThemis (VStr "3.0.0") VUndefined VUndefined (VObj []) VUndefined
           VUndefined VUndefined VUndefined "" VUndefined.

(** [new Themis(apiVersion, info, config)]: [None] when the constructor
    throws.  [config] is [VUndefined] when the argument is omitted. *)
Definition constructor (env : Env) (apiVersion : string) (info config : value)
  : option World :=
  let w := exec (update (with_apiVersion apiVersion) ;;
                 update (with_info info)) (mkWorld fresh [] []) in
  match require env (projectRoot env ++ "/themis.config.json") with
  | None => None
  | Some incomingConfig =>
      match checkAndConstructConfig (config ?? incomingConfig) with
      | None => None
      | Some cfg => prepareFiles env apiVersion (projectRoot env) cfg w
      end
  end.

(** *** Mutation surface *)

Definition when (c : bool) (m : M unit) : M unit := if c then m else ret tt.

(** [setOpenapi] *)
Definition setOpenapi (v : value) : M unit :=
  cur <- gets openapi ;; update (with_openapi (v ?? cur)).

(** [defineInfo] *)
Definition defineInfo (v : value) : M unit :=
  syncWrap (Some (
    cur <- gets info ;;
    update (with_info (merge (cur ?? VObj []) (v ?? VObj []))))).

(** [defineServers] *)
Definition defineServers (v : value) : M unit :=
  syncWrap (Some (
    cur <- gets servers ;;
    update (with_servers
      (get (merge (VObj [("servers", cur ?? VArr [])])
                  (VObj [("servers", v ?? VArr [])])) "servers")))).

(** [server] *)
Definition server (v : value) : M unit := defineServers (VArr [v]).

(** [defineExternalDocs] *)
Definition defineExternalDocs (v : value) : M unit :=
  syncWrap (Some (
    cur <- gets externalDocs ;;
    update (with_externalDocs (merge (cur ?? VObj []) (v ?? VObj []))))).

(** [defineSecurityRequirements] *)
Definition defineSecurityRequirements (v : value) : M unit :=
  syncWrap (Some (
    cur <- gets security ;;
    update (with_security
      (get (merge (VObj [("security", cur ?? VArr [])])
                  (VObj [("security", v ?? VArr [])])) "security")))).

(** [securityRequirement] *)
Definition securityRequirement (v : value) : M unit :=
  defineSecurityRequirements (VArr [v]).

(** [defineTags] *)
Definition defineTags (v : value) : M unit :=
  syncWrap (Some (
    cur <- gets tags ;;
    update (with_tags
      (get (merge (VObj [("tags", cur ?? VArr [])])
                  (VObj [("tags", v ?? VArr [])])) "tags")))).

(** [definePaths] *)
Definition definePaths (v : value) : M unit :=
  syncWrap (Some (
    cur <- gets paths ;;
    update (with_paths (merge (cur ?? VObj []) v)))).

(** [path] *)
Definition path (p : string) (item : value) : M unit :=
  definePaths (VObj [(p, item)]).

(** [defineComponents] *)
Definition defineComponents (v : value) : M unit :=
  syncWrap (Some (
    cur <- gets components ;;
    update (with_components (merge (cur ?? VObj []) v)))).

(** [describe]: the description is an object; its fields are read one by
    one and each present one is forwarded to its own operation. *)
Definition describe (description : list (string * value)) : M unit :=
  let d := VObj description in
  syncWrap (Some (
    when (truthy (get d "openapi")) (setOpenapi (get d "openapi")) ;;
    when (truthy (get d "info")) (defineInfo (get d "info")) ;;
    when (truthy (get d "servers")) (defineServers (get d "servers")) ;;
    when (truthy (get d "externalDocs"))
         (defineExternalDocs (get d "externalDocs")) ;;
    when (truthy (get d "security"))
         (defineSecurityRequirements (get d "security")) ;;
    when (truthy (get d "tags")) (defineTags (get d "tags")))).

(** *** Component registry *)

(** The body shared by the eight [define...Components] methods, which
    differ only in the category token [cat]:
    [if (!!this.components)
       this.components[cat] = merge(this.components?.[cat] ?? [], frag);
     else this.components = { [cat]: frag };] *)
Definition defineCategory (cat : string) (frag : value) : M unit :=
  syncWrap (Some (
    cur <- gets components ;;
    if truthy cur
    then update (with_components
           (set cur cat (merge (get_opt cur cat ?? VArr []) frag)))
    else update (with_components (VObj [(cat, frag)])))).

Definition defineCallbackComponents := defineCategory "callbacks".
Definition defineExampleComponents := defineCategory "examples".
Definition defineHeaderComponents := defineCategory "headers".
Definition defineLinkComponents := defineCategory "links".
Definition defineParameterComponents := defineCategory "parameters".
Definition defineRequestBodyComponents := defineCategory "requestBodies".
Definition defineResponseComponents := defineCategory "responses".
Definition defineSchemaComponents := defineCategory "schemas".
Definition defineSecuritySchemeComponents := defineCategory "securitySchemes".

Definition callbackComponent (key : string) (v : value) : M unit :=
  defineCallbackComponents (VObj [(key, v)]).
Definition exampleComponent (key : string) (v : value) : M unit :=
  defineExampleComponents (VObj [(key, v)]).
Definition headerComponent (key : string) (v : value) : M unit :=
  defineHeaderComponents (VObj [(key, v)]).
Definition linkComponent (key : string) (v : value) : M unit :=
  defineLinkComponents (VObj [(key, v)]).
Definition parameterComponent (key : string) (v : value) : M unit :=
  defineParameterComponents (VObj [(key, v)]).
Definition requestBodyComponent (key : string) (v : value) : M unit :=
  defineRequestBodyComponents (VObj [(key, v)]).
Definition responseComponent (key : string) (v : value) : M unit :=
  defineResponseComponents (VObj [(key, v)]).
Definition schemaComponent (key : string) (v : value) : M unit :=
  defineSchemaComponents (VObj [(key, v)]).
Definition securitySchemeComponent (key : string) (v : value) : M unit :=
  defineSecuritySchemeComponents (VObj [(key, v)]).

(** The body shared by the eight read accessors:
    [!!this?.components?.[cat] ? this?.components?.[cat][key] : {}] *)
Definition getCategory (cat key : string) : M value :=
  cur <- gets components ;;
  ret (if truthy (get_opt cur cat) then get (get_opt cur cat) key
       else VObj []).

Definition getSchemaComponent := getCategory "schemas".
Definition getParameterComponent := getCategory "parameters".
Definition getResponseComponent := getCategory "responses".
Definition getHeaderComponent := getCategory "headers".
Definition getRequestBodyComponent := getCategory "requestBodies".
Definition getSecuritySchemeComponent := getCategory "securitySchemes".
Definition getExampleComponent := getCategory "examples".
Definition getCallbackComponent := getCategory "callbacks".

(** Reference formatters. *)
Definition getSchemaComponentRef (schema : string) : M value :=
  ret (VObj [("$ref", VStr ("#/components/schemas/" ++ schema))]).
Definition getParameterComponentRef (parameter : string) : M value :=
  ret (VObj [("$ref", VStr ("#/components/parameters/" ++ parameter))]).
Definition getResponseComponentRef (response : string) : M value :=
  ret (VObj [("$ref", VStr ("#/components/responses/" ++ response))]).
Definition getHeaderComponentRef (Header : string) : M value :=
  ret (VObj [("$ref", VStr ("#/components/headers/" ++ Header))]).
Definition getRequestBodyComponentRef (requestBody : string) : M value :=
  ret (VObj [("$ref", VStr ("#/components/requestBodies/" ++ requestBody))]).
Definition getSecuritySchemeComponentRef (securityScheme : string) : M value :=
  ret (VObj [("$ref",
              VStr ("#/components/securitySchemes/" ++ securityScheme))]).
Definition getExampleComponentRef (example : string) : M value :=
  ret (VObj [("$ref", VStr ("#/components/examples/" ++ example))]).
Definition getCallbackComponentRef (callback : string) : M value :=
  ret (VObj [("$ref", VStr ("#/components/callbacks/" ++ callback))]).

End Doc.
Import Doc.

(* ===================================================================== *)
(** ** Call sequences and the event loop                                  *)
(* ===================================================================== *)

Module Run.

Inductive category : Type :=
| Callbacks | Examples | Headers | Links | Parameters
| RequestBodies | Responses | Schemas | SecuritySchemes.

Definition defineIn (c : category) : value -> M unit :=
  match c with
  | Callbacks => defineCallbackComponents
  | Examples => defineExampleComponents
  | Headers => defineHeaderComponents
  | Links => defineLinkComponents
  | Parameters => defineParameterComponents
  | RequestBodies => defineRequestBodyComponents
  | Responses => defineResponseComponents
  | Schemas => defineSchemaComponents
  | SecuritySchemes => defineSecuritySchemeComponents
  end.

Definition componentIn (c : category) : string -> value -> M unit :=
  match c with
  | Callbacks => callbackComponent
  | Examples => exampleComponent
  | Headers => headerComponent
  | Links => linkComponent
  | Parameters => parameterComponent
  | RequestBodies => requestBodyComponent
  | Responses => responseComponent
  | Schemas => schemaComponent
  | SecuritySchemes => securitySchemeComponent
  end.

(** One call of a mutation operation by the owner of the document. *)
Inductive op : Type :=
| Describe (description : list (string * value))
| SetOpenapi (v : value)
| DefineInfo (v : value)
| DefineServers (v : value)
| Server (v : value)
| DefineExternalDocs (v : value)
| DefineSecurityRequirements (v : value)
| SecurityRequirement (v : value)
| DefineTags (v : value)
| DefinePaths (v : value)
| Path (p : string) (item : value)
| DefineComponents (v : value)
| DefineIn (c : category) (frag : value)
| ComponentIn (c : category) (key : string) (v : value).

Definition call (o : op) : M unit :=
  match o with
  | Describe d => describe d
  | SetOpenapi v => setOpenapi v
  | DefineInfo v => defineInfo v
  | DefineServers v => defineServers v
  | Server v => server v
  | DefineExternalDocs v => defineExternalDocs v
  | DefineSecurityRequirements v => defineSecurityRequirements v
  | SecurityRequirement v => securityRequirement v
  | DefineTags v => defineTags v
  | DefinePaths v => definePaths v
  | Path p item => path p item
  | DefineComponents v => defineComponents v
  | DefineIn c frag => defineIn c frag
  | ComponentIn c key v => componentIn c key v
  end.

Definition callback_eqb (a b : callback) : bool :=
  match a, b with
  | CreateCb p v, CreateCb p' v' => String.eqb p p' && String.eqb v v'
  | SyncCb v, SyncCb v' => String.eqb v v'
  | _, _ => false
  end.

Fixpoint remove_first (cb : callback) (l : list callback) : list callback :=
  match l with
  | [] => []
  | x :: r => if callback_eqb x cb then r else x :: remove_first cb r
  end.

(** What can happen to a constructed document: a mutation call, a reload,
    or the event loop running a dispatched write's callback with the
    outcome of that write. *)
Inductive event : Type :=
| Call (o : op)
| Reload
| Settle (cb : callback) (err : bool).

Definition settle (cb : callback) (err : bool) : M unit :=
  fun w =>
    if existsb (callback_eqb cb) (pending w)
    then run_callback cb err
           (mkWorld (this w) (io w) (remove_first cb (pending w)))
    else (tt, w).

Definition step (env : Env) (e : event) : M unit :=
  match e with
  | Call o => call o
  | Reload => loadFromFile env
  | Settle cb err => settle cb err
  end.

Definition run (env : Env) (es : list event) (w : World) : World :=
  fold_left (fun w e => exec (step env e) w) es w.

(** The writes dispatched by flushes, oldest first. *)
Definition is_flush (e : effect) : bool :=
  match e with
  | WriteFile _ _ (SyncCb _) => true
  | _ => false
  end.

Definition flushes (w : World) : list effect := filter is_flush (io w).

End Run.
Import Run.

(* ===================================================================== *)
(** ** A concrete platform                                                *)
(* ===================================================================== *)

Module Posix.

(** The scan of Node's [path.posix.extname]: the path is read from its last
    character to its first; [i] is the index of the character at the head
    of [rev]. *)
Record scan : Type := mkScan {
  startDot : option nat;
  startPart : nat;
  endPos : option nat;
  matchedSlash : bool;
  preDotState : Z
}.

Fixpoint ext_scan (rev : list ascii) (i : nat) (st : scan) : scan :=
  match rev with
  | [] => st
  | c :: rest =>
      if Ascii.eqb c "/"%char
      then
        if negb (matchedSlash st)
        then mkScan (startDot st) (S i) (endPos st) (matchedSlash st)
                    (preDotState st)
        else ext_scan rest (pred i) st
      else
        let st1 :=
          match endPos st with
          | None => mkScan (startDot st) (startPart st) (Some (S i)) false
                           (preDotState st)
          | Some _ => st
          end in
        let st2 :=
          if Ascii.eqb c "."%char
          then
            match startDot st1 with
            | None => mkScan (Some i) (startPart st1) (endPos st1)
                             (matchedSlash st1) (preDotState st1)
            | Some _ => mkScan (startDot st1) (startPart st1) (endPos st1)
                               (matchedSlash st1) 1%Z
            end
          else
            match startDot st1 with
            | Some _ => mkScan (startDot st1) (startPart st1) (endPos st1)
                               (matchedSlash st1) (-1)%Z
            | None => st1
            end in
        ext_scan rest (pred i) st2
  end.

Definition extname (p : string) : string :=
  let st := ext_scan (rev (list_ascii_of_string p)) (pred (String.length p))
                     (mkScan None 0 None true 0%Z) in
  match startDot st, endPos st with
  | Some d, Some e =>
      if Z.eqb (preDotState st) 0
         || (Z.eqb (preDotState st) 1 && Nat.eqb d (pred e)
             && Nat.eqb d (S (startPart st)))
      then ""
      else substring d (e - d) p
  | _, _ => ""
  end.

(** A project rooted at [/srv/app] whose configuration file holds [{}] and
    in which every directory in [dirs] exists and no file does. *)
Definition platform (dirs : list string) : Env :=
  mkEnv "/srv/app"
        (fun p => if String.eqb p "/srv/app/themis.config.json"
                  then Some (VObj []) else None)
        extname
        (fun p => existsb (String.eqb p) dirs)
        (fun _ => true).

End Posix.


(* ===================================================================== *)
(** ** Basic facts about the monad and the flush                          *)
(* ===================================================================== *)

Section Plumbing.

Lemma exec_bind (m : M unit) (k : M unit) (w : World) :
  exec (m ;; k) w = exec k (exec m w).
Proof. unfold exec, bind. destruct (m w) as [[] w']. reflexivity. Qed.

Lemma exec_gets {A} (f : Themis -> A) (k : A -> M unit) (w : World) :
  exec (x <- gets f ;; k x) w = exec (k (f (this w))) w.
Proof. reflexivity. Qed.

Lemma this_emit (e : effect) (w : World) : this (exec (emit e) w) = this w.
Proof. reflexivity. Qed.

Lemma this_fs_writeFile p d cb (w : World) :
  this (exec (fs_writeFile p d cb) w) = this w.
Proof. reflexivity. Qed.

(** The flush never touches the instance: after [syncWrap] the fields are
    the ones its callback left. *)
Lemma this_syncWrap (cb : M unit) (w : World) :
  this (exec (syncWrap (Some cb)) w) = this (exec cb w).
Proof.
  unfold syncWrap. rewrite exec_bind.
  set (w1 := exec cb w). cbv [exec bind gets].
  destruct (truthy (schemaFile (this w1))); reflexivity.
Qed.

Lemma this_update (f : Themis -> Themis) (w : World) :
  this (exec (update f) w) = f (this w).
Proof. reflexivity. Qed.

End Plumbing.

Example extname_plain : Posix.extname "/srv/app/themis/spec.v1.json" = ".json".
Proof. reflexivity. Qed.

Example extname_dotfile : Posix.extname "/srv/app/themis/spec.v1/.json" = "".
Proof. reflexivity. Qed.

(* ===================================================================== *)
(** ** Component registry: reads and references                           *)
(* ===================================================================== *)

Module Registry.

(** A document holding one schema, [Pet], and nothing else. *)
Definition pet_store : World :=
  mkWorld (with_components
             (VObj [("schemas",
                     VObj [("Pet", VObj [("type", VStr "object")])])])
             fresh) [] [].

(** A read in a category that does not exist yields the empty object. *)
Lemma getCategory_absent_category (cat key : string) (w : World) :
  truthy (get_opt (components (this w)) cat) = false ->
  getCategory cat key w = (VObj [], w).
Proof.
  intros H. unfold getCategory, bind, gets, ret. simpl. now rewrite H.
Qed.

(** A read never changes the document, whatever it returns. *)
Lemma getCategory_pure (cat key : string) (w : World) :
  snd (getCategory cat key w) = w.
Proof. reflexivity. Qed.

(** A read of a key that is missing from an existing category yields
    [undefined]. *)
Lemma getCategory_absent_key (cat key : string) (w : World)
  (fs : list (string * value)) :
  get_opt (components (this w)) cat = VObj fs ->
  lookup key fs = None ->
  getCategory cat key w = (VUndefined, w).
Proof.
  intros Hc Hk. unfold getCategory, bind, gets, ret. simpl.
  rewrite Hc. simpl. now rewrite Hk.
Qed.

(** C1, at the input where the code departs from it: with the schema
    [Pet] defined, reading the undefined schema [Owner] (an existing
    category, a missing key) returns [undefined], which is not the empty
    object; a read in the category [responses], which is absent as a whole,
    does return the empty object, and neither read changes the document. *)
Theorem C1_missing_key_reads_undefined :
  getSchemaComponent "Owner" pet_store = (VUndefined, pet_store)
  /\ VUndefined <> VObj []
  /\ getResponseComponent "Owner" pet_store = (VObj [], pet_store).
Proof.
  split; [reflexivity | split; [discriminate | reflexivity]].
Qed.

(** C7: each reference accessor returns the one-field object whose [$ref]
    is the fixed prefix of its category followed by the key, for every key
    and in every state of the world, defined component or not, and leaves
    that state as it found it. *)
Theorem C7_reference_formatters (k : string) (w : World) :
  getSchemaComponentRef k w
    = (VObj [("$ref", VStr ("#/components/schemas/" ++ k))], w)
  /\ getParameterComponentRef k w
    = (VObj [("$ref", VStr ("#/components/parameters/" ++ k))], w)
  /\ getResponseComponentRef k w
    = (VObj [("$ref", VStr ("#/components/responses/" ++ k))], w)
  /\ getHeaderComponentRef k w
    = (VObj [("$ref", VStr ("#/components/headers/" ++ k))], w)
  /\ getRequestBodyComponentRef k w
    = (VObj [("$ref", VStr ("#/components/requestBodies/" ++ k))], w)
  /\ getSecuritySchemeComponentRef k w
    = (VObj [("$ref", VStr ("#/components/securitySchemes/" ++ k))], w)
  /\ getExampleComponentRef k w
    = (VObj [("$ref", VStr ("#/components/examples/" ++ k))], w)
  /\ getCallbackComponentRef k w
    = (VObj [("$ref", VStr ("#/components/callbacks/" ++ k))], w).
Proof. repeat split. Qed.

(** The reference of a key does not depend on the document it is asked
    of. *)
Lemma reference_ignores_document (k : string) (w w' : World) :
  fst (getSchemaComponentRef k w) = fst (getSchemaComponentRef k w').
Proof. reflexivity. Qed.

Example pet_reference_before_definition :
  fst (getSchemaComponentRef "Pet" (mkWorld fresh [] []))
  = VObj [("$ref", VStr "#/components/schemas/Pet")].
Proof. reflexivity. Qed.

End Registry.

(* ===================================================================== *)
(** ** Singular operations                                                *)
(* ===================================================================== *)

Module Singular.

(** C8: a singular operation is the batch operation on a batch of one, in
    every world: [path], [server] and [schemaComponent], and with them the
    security requirement and the other component categories. *)
Theorem C8_singular_is_batch_of_one
  (w : World) (p k : string) (item s sch v : value) (c : category) :
  path p item w = definePaths (VObj [(p, item)]) w
  /\ server s w = defineServers (VArr [s]) w
  /\ schemaComponent k sch w = defineSchemaComponents (VObj [(k, sch)]) w
  /\ securityRequirement v w = defineSecurityRequirements (VArr [v]) w
  /\ componentIn c k v w = defineIn c (VObj [(k, v)]) w.
Proof.
  repeat split. destruct c; reflexivity.
Qed.

(** The same, seen through the call sequences: replacing a singular call
    by its batch form anywhere in a sequence changes nothing. *)
Lemma run_singular (env : Env) (p : string) (item : value)
  (before after : list event) (w : World) :
  run env (before ++ Call (Path p item) :: after) w
  = run env (before ++ Call (DefinePaths (VObj [(p, item)])) :: after) w.
Proof.
  unfold run. rewrite !fold_left_app. reflexivity.
Qed.

End Singular.

(* ===================================================================== *)
(** ** Construction                                                       *)
(* ===================================================================== *)

Module Construction.

(** C9: the constructor loads [<projectRoot>/themis.config.json] before it
    looks at its [config] argument; when that load throws, construction
    throws, for every [apiVersion], [info] and [config]. *)
Theorem C9_config_file_is_required
  (env : Env) (apiVersion : string) (info config : value) :
  require env (projectRoot env ++ "/themis.config.json") = None ->
  constructor env apiVersion info config = None.
Proof.
  intros H. unfold constructor. now rewrite H.
Qed.

(** A project without a configuration file. *)
Definition bare_project : Env :=
  mkEnv "/srv/app" (fun _ => None) Posix.extname (fun _ => true)
        (fun _ => true).

Definition full_config : value :=
  VObj [("docsDir", VStr "docs"); ("schemaFilePrefix", VStr "api.")].

Lemma C9_witness :
  constructor bare_project "v1" (VObj [("title", VStr "Pets API")])
              full_config = None.
Proof.
  apply (C9_config_file_is_required bare_project "v1"
           (VObj [("title", VStr "Pets API")]) full_config).
  reflexivity.
Defined.

(** With the file in place the same call constructs the document. *)
Example construction_with_file :
  option_map (fun w => schemaFile (this w))
    (constructor (Posix.platform ["/srv/app/docs/"]) "v1" (VObj []) full_config)
  = Some (VStr "/srv/app/docs/api.v1.json").
Proof. reflexivity. Qed.

End Construction.

(* ===================================================================== *)
(** ** Merging fragments into the document                                *)
(* ===================================================================== *)

Module Merging.

(** The sequence a list-valued field stands for: an absent field stands
    for the empty sequence, as [this.tags ?? []] reads it. *)
Definition no_entries (v : value) : bool :=
  match v with
  | VUndefined | VNull | VArr [] => true
  | _ => false
  end.

Definition is_seq (v : value) : bool :=
  match v with
  | VUndefined | VNull | VArr _ => true
  | _ => false
  end.

Definition is_map (v : value) : bool :=
  match v with
  | VUndefined | VNull | VObj _ => true
  | _ => false
  end.

Lemma merge_empty_right (D : list (string * value)) :
  merge (VObj D) (VObj []) = VObj D.
Proof. reflexivity. Qed.

Lemma merge_wrapped_seq (k : string) (xs ys : list value) :
  get (merge (VObj [(k, VArr xs)]) (VObj [(k, VArr ys)])) k = VArr (xs ++ ys).
Proof.
  simpl. rewrite String.eqb_refl. simpl. now rewrite String.eqb_refl.
Qed.

Lemma coalesce_seq (v : value) :
  is_seq v = true -> exists xs, v ?? VArr [] = VArr xs.
Proof.
  destruct v; simpl; try discriminate; intros _; eexists; reflexivity.
Qed.

Lemma coalesce_no_entries (v : value) :
  no_entries v = true -> v ?? VArr [] = VArr [].
Proof.
  destruct v as [| | | | | [|x xs] |]; simpl; try discriminate; reflexivity.
Qed.

(** What one call does to its field, flush aside. *)
Lemma tags_defineTags (v : value) (w : World) :
  tags (this (exec (defineTags v) w))
  = get (merge (VObj [("tags", tags (this w) ?? VArr [])])
               (VObj [("tags", v ?? VArr [])])) "tags".
Proof. unfold defineTags. now rewrite this_syncWrap. Qed.

Lemma servers_defineServers (v : value) (w : World) :
  servers (this (exec (defineServers v) w))
  = get (merge (VObj [("servers", servers (this w) ?? VArr [])])
               (VObj [("servers", v ?? VArr [])])) "servers".
Proof. unfold defineServers. now rewrite this_syncWrap. Qed.

Lemma security_defineSecurityRequirements (v : value) (w : World) :
  security (this (exec (defineSecurityRequirements v) w))
  = get (merge (VObj [("security", security (this w) ?? VArr [])])
               (VObj [("security", v ?? VArr [])])) "security".
Proof. unfold defineSecurityRequirements. now rewrite this_syncWrap. Qed.

Lemma info_defineInfo (v : value) (w : World) :
  info (this (exec (defineInfo v) w))
  = merge (info (this w) ?? VObj []) (v ?? VObj []).
Proof. unfold defineInfo. now rewrite this_syncWrap. Qed.

Lemma this_defineComponents (v : value) (w : World) :
  this (exec (defineComponents v) w)
  = with_components (merge (components (this w) ?? VObj []) v) (this w).
Proof. unfold defineComponents. now rewrite this_syncWrap. Qed.

Lemma this_definePaths (v : value) (w : World) :
  this (exec (definePaths v) w)
  = with_paths (merge (paths (this w) ?? VObj []) v) (this w).
Proof. unfold definePaths. now rewrite this_syncWrap. Qed.

Lemma this_defineInfo (v : value) (w : World) :
  this (exec (defineInfo v) w)
  = with_info (merge (info (this w) ?? VObj []) (v ?? VObj [])) (this w).
Proof. unfold defineInfo. now rewrite this_syncWrap. Qed.

Lemma this_defineExternalDocs (v : value) (w : World) :
  this (exec (defineExternalDocs v) w)
  = with_externalDocs
      (merge (externalDocs (this w) ?? VObj []) (v ?? VObj [])) (this w).
Proof. unfold defineExternalDocs. now rewrite this_syncWrap. Qed.

(** C3: on a document whose sequence field has no entries yet, two calls
    with one element each leave the field equal to the two elements in call
    order, whatever the elements are and also when they are equal; this
    holds for tags, for servers and for security requirements. *)
Theorem C3_sequences_concatenate_in_call_order (w : World) (t1 t2 : value) :
  (no_entries (tags (this w)) = true ->
   tags (this (exec (defineTags (VArr [t1]) ;; defineTags (VArr [t2])) w))
   = VArr [t1; t2])
  /\ (no_entries (servers (this w)) = true ->
      servers (this (exec (defineServers (VArr [t1]) ;;
                           defineServers (VArr [t2])) w))
      = VArr [t1; t2])
  /\ (no_entries (security (this w)) = true ->
      security (this (exec (defineSecurityRequirements (VArr [t1]) ;;
                            defineSecurityRequirements (VArr [t2])) w))
      = VArr [t1; t2]).
Proof.
  repeat split; intros H; rewrite exec_bind.
  - rewrite tags_defineTags, tags_defineTags, (coalesce_no_entries _ H).
    change (VArr [t1] ?? VArr []) with (VArr [t1]).
    rewrite merge_wrapped_seq. simpl app.
    change (VArr [t1] ?? VArr []) with (VArr [t1]).
    change (VArr [t2] ?? VArr []) with (VArr [t2]).
    now rewrite merge_wrapped_seq.
  - rewrite servers_defineServers, servers_defineServers,
      (coalesce_no_entries _ H).
    change (VArr [t1] ?? VArr []) with (VArr [t1]).
    rewrite merge_wrapped_seq. simpl app.
    change (VArr [t1] ?? VArr []) with (VArr [t1]).
    change (VArr [t2] ?? VArr []) with (VArr [t2]).
    now rewrite merge_wrapped_seq.
  - rewrite security_defineSecurityRequirements,
      security_defineSecurityRequirements, (coalesce_no_entries _ H).
    change (VArr [t1] ?? VArr []) with (VArr [t1]).
    rewrite merge_wrapped_seq. simpl app.
    change (VArr [t1] ?? VArr []) with (VArr [t1]).
    change (VArr [t2] ?? VArr []) with (VArr [t2]).
    now rewrite merge_wrapped_seq.
Qed.

Definition tag_pets : value :=
  VObj [("name", VStr "pets"); ("description", VStr "Everything about pets")].

(** The same tag twice on a fresh document: both copies are kept. *)
Lemma C3_witness :
  tags (this (exec (defineTags (VArr [tag_pets]) ;;
                    defineTags (VArr [tag_pets])) (mkWorld fresh [] [])))
  = VArr [tag_pets; tag_pets].
Proof.
  apply (proj1 (C3_sequences_concatenate_in_call_order
                  (mkWorld fresh [] []) tag_pets tag_pets)).
  reflexivity.
Defined.

(** C4: merging the empty object into a document value returns that
    value; so a mutation called with the empty object leaves the whole
    instance, and with it the field that holds the document value [D], as
    it was.  This is stated for the four map-valued sections. *)
Theorem C4_merge_empty_is_identity (D : list (string * value)) :
  merge (VObj D) (VObj []) = VObj D
  /\ (forall w, components (this w) = VObj D ->
        this (exec (defineComponents (VObj [])) w) = this w)
  /\ (forall w, paths (this w) = VObj D ->
        this (exec (definePaths (VObj [])) w) = this w)
  /\ (forall w, info (this w) = VObj D ->
        this (exec (defineInfo (VObj [])) w) = this w)
  /\ (forall w, externalDocs (this w) = VObj D ->
        this (exec (defineExternalDocs (VObj [])) w) = this w).
Proof.
  split; [reflexivity|].
  repeat split; intros w H.
  - rewrite this_defineComponents, H. simpl.
    rewrite <- H. now destruct w as [[] ? ?].
  - rewrite this_definePaths, H. simpl.
    rewrite <- H. now destruct w as [[] ? ?].
  - rewrite this_defineInfo, H. simpl.
    rewrite <- H. now destruct w as [[] ? ?].
  - rewrite this_defineExternalDocs, H. simpl.
    rewrite <- H. now destruct w as [[] ? ?].
Qed.

Definition pets_paths : list (string * value) :=
  [("/pets", VObj [("get", VObj [("summary", VStr "List pets")])])].

Definition pets_world : World :=
  mkWorld (with_paths (VObj pets_paths) fresh) [] [].

Lemma C4_witness :
  this (exec (definePaths (VObj [])) pets_world) = this pets_world.
Proof.
  apply (proj1 (proj2 (proj2 (C4_merge_empty_is_identity pets_paths)))
           pets_world).
  reflexivity.
Defined.

(** On a section that is still undefined the empty fragment is installed
    as it is: the field goes from [undefined] to the empty object. *)
Lemma defineComponents_empty_on_undefined (w : World) :
  components (this w) = VUndefined ->
  components (this (exec (defineComponents (VObj [])) w)) = VObj [].
Proof. intros H. now rewrite this_defineComponents, H. Qed.

(** C10: called with [null] or [undefined], [defineTags], [defineServers],
    [defineSecurityRequirements] and [defineInfo] behave as when called
    with the empty fragment, they return a world (the methods are total),
    and the field keeps its contents: a sequence field that holds the
    sequence [xs] (an absent field holds the empty one) holds [xs]
    afterwards, and [info] holding the object [D] (or nothing) holds [D]
    (or the empty object) afterwards. *)
Theorem C10_nullish_fragment_is_empty (w : World) (v : value) :
  nullish v = true ->
  (defineTags v w = defineTags (VArr []) w
   /\ defineServers v w = defineServers (VArr []) w
   /\ defineSecurityRequirements v w = defineSecurityRequirements (VArr []) w
   /\ defineInfo v w = defineInfo (VObj []) w)
  /\ (is_seq (tags (this w)) = true ->
      tags (this (exec (defineTags v) w)) = tags (this w) ?? VArr [])
  /\ (is_seq (servers (this w)) = true ->
      servers (this (exec (defineServers v) w)) = servers (this w) ?? VArr [])
  /\ (is_seq (security (this w)) = true ->
      security (this (exec (defineSecurityRequirements v) w))
      = security (this w) ?? VArr [])
  /\ (is_map (info (this w)) = true ->
      info (this (exec (defineInfo v) w)) = info (this w) ?? VObj []).
Proof.
  intros Hv.
  assert (Ha : v ?? VArr [] = VArr []) by (destruct v; now try discriminate).
  assert (Ho : v ?? VObj [] = VObj []) by (destruct v; now try discriminate).
  split.
  - unfold defineTags, defineServers, defineSecurityRequirements, defineInfo.
    rewrite Ha, Ho. repeat split.
  - repeat split; intros H.
    + rewrite tags_defineTags, Ha.
      destruct (coalesce_seq _ H) as [xs ->].
      now rewrite merge_wrapped_seq, app_nil_r.
    + rewrite servers_defineServers, Ha.
      destruct (coalesce_seq _ H) as [xs ->].
      now rewrite merge_wrapped_seq, app_nil_r.
    + rewrite security_defineSecurityRequirements, Ha.
      destruct (coalesce_seq _ H) as [xs ->].
      now rewrite merge_wrapped_seq, app_nil_r.
    + rewrite info_defineInfo, Ho.
      destruct (info (this w)); try discriminate; reflexivity.
Qed.

Definition tagged_world : World :=
  mkWorld (with_tags (VArr [tag_pets]) fresh) [] [].

Lemma C10_witness :
  tags (this (exec (defineTags VNull) tagged_world)) = VArr [tag_pets].
Proof.
  apply (proj1 (proj2 (C10_nullish_fragment_is_empty tagged_world VNull
                         eq_refl))).
  reflexivity.
Defined.

End Merging.

(* ===================================================================== *)
(** ** Reload                                                             *)
(* ===================================================================== *)

Module Reloading.



Definition module_path (w : World) : string :=
  to_string (schemaFile (this w)).


(** A file that holds [null] loads, but reading its first property throws
    inside the [try]: nothing is assigned. *)
Lemma loadFromFile_null (env : Env) (w : World) :
  require env (module_path w) = Some VNull ->
  this (exec (loadFromFile env) w) = this w.
Proof.
  intros H. unfold loadFromFile, module_path in *.
  cbv [exec bind gets]. simpl. now rewrite H.
Qed.





Definition loaded_world : World :=
  mkWorld (with_schemaFile (VStr "/srv/app/themis/spec.v1.json")
             (with_tags (VArr [VObj [("name", VStr "pets")]]) fresh)) [] [].



End Reloading.

(* ===================================================================== *)
(** ** What a method leaves alone                                         *)
(* ===================================================================== *)

Module Frame.

(** [preserves proj m]: running [m] does not change the part [proj] of the
    instance. *)
Definition preserves {A} (proj : Themis -> A) (m : M unit) : Prop :=
  forall w, proj (this (exec m w)) = proj (this w).

(** [silent m]: while [schemaFile] is empty or unset, running [m]
    dispatches no flush write. *)
Definition silent (m : M unit) : Prop :=
  forall w, truthy (schemaFile (this w)) = false ->
            flushes (exec m w) = flushes w.

Section Preserves.

Context {A : Type} (proj : Themis -> A).

Lemma preserves_ret : preserves proj (ret tt).
Proof. intros w. reflexivity. Qed.

Lemma preserves_bind (m k : M unit) :
  preserves proj m -> preserves proj k -> preserves proj (m ;; k).
Proof. intros Hm Hk w. rewrite exec_bind, Hk. apply Hm. Qed.

Lemma preserves_gets {B} (f : Themis -> B) (k : B -> M unit) :
  (forall b, preserves proj (k b)) -> preserves proj (bind (gets f) k).
Proof. intros H w. apply (H (f (this w)) w). Qed.

Lemma preserves_emit (e : effect) : preserves proj (emit e).
Proof. intros w. reflexivity. Qed.

Lemma preserves_update (f : Themis -> Themis) :
  (forall t, proj (f t) = proj t) -> preserves proj (update f).
Proof. intros H w. apply H. Qed.

Lemma preserves_when (c : bool) (m : M unit) :
  preserves proj m -> preserves proj (when c m).
Proof. intros H. destruct c; [exact H | apply preserves_ret]. Qed.

Lemma preserves_syncWrap (cb : M unit) :
  preserves proj cb -> preserves proj (syncWrap (Some cb)).
Proof. intros H w. rewrite this_syncWrap. apply H. Qed.

End Preserves.

Lemma flushes_log (w : World) sev tag msg :
  flushes (exec (emit (ConsoleLog sev tag msg)) w) = flushes w.
Proof.
  unfold flushes. simpl. rewrite filter_app. simpl. apply app_nil_r.
Qed.

Lemma silent_ret : silent (ret tt).
Proof. intros w _. reflexivity. Qed.

Lemma silent_bind (m k : M unit) :
  preserves schemaFile m -> silent m -> silent k -> silent (m ;; k).
Proof.
  intros Hp Hm Hk w Hw. rewrite exec_bind, Hk, Hm; trivial.
  now rewrite Hp.
Qed.

Lemma silent_gets {B} (f : Themis -> B) (k : B -> M unit) :
  (forall b, silent (k b)) -> silent (bind (gets f) k).
Proof. intros H w. apply (H (f (this w)) w). Qed.

Lemma silent_update (f : Themis -> Themis) : silent (update f).
Proof. intros w _. reflexivity. Qed.

Lemma silent_when (c : bool) (m : M unit) : silent m -> silent (when c m).
Proof. intros H. destruct c; [exact H | apply silent_ret]. Qed.

(** The flush itself: with no file to write to it only logs. *)
Lemma silent_syncWrap (cb : M unit) :
  preserves schemaFile cb -> silent cb -> silent (syncWrap (Some cb)).
Proof.
  intros Hp Hs w Hw. unfold syncWrap. rewrite exec_bind.
  pose proof (Hp w) as Hsf. pose proof (Hs w Hw) as Hfl.
  set (w1 := exec cb w) in *.
  cbv [bind gets exec]. simpl.
  rewrite Hsf, Hw. rewrite <- Hfl. apply flushes_log.
Qed.

(** With a file to write to, the flush dispatches exactly one write, of
    the projection of the instance as the callback left it. *)
Lemma syncWrap_writes (cb : M unit) (w : World) :
  preserves schemaFile cb -> preserves apiVersion cb ->
  truthy (schemaFile (this w)) = true ->
  flushes (exec (syncWrap (Some cb)) w)
  = (flushes (exec cb w)
     ++ [WriteFile (to_string (schemaFile (this w)))
                   (shaveDownToSpec (this (exec cb w)))
                   (SyncCb (apiVersion (this w)))])%list.
Proof.
  intros Hp Ha Hw. unfold syncWrap. rewrite exec_bind.
  pose proof (Hp w) as Hsf. pose proof (Ha w) as Hav.
  set (w1 := exec cb w) in *.
  cbv [bind gets exec]. simpl.
  rewrite Hsf, Hw, Hav. unfold flushes. simpl.
  rewrite filter_app. reflexivity.
Qed.

(** Every step of a method that is neither an update of [schemaFile] nor
    a write is taken care of by these. *)
Ltac frame :=
  repeat first
    [ apply preserves_syncWrap
    | apply preserves_gets; intro
    | apply preserves_bind
    | apply preserves_when
    | apply preserves_update; intros []; reflexivity
    | apply preserves_emit
    | apply preserves_ret
    | match goal with
      | |- preserves _ (if ?c then _ else _) => destruct c
      | |- preserves _ (match ?c with _ => _ end) => destruct c
      end ].

Ltac hush :=
  repeat first
    [ apply silent_syncWrap; [frame|]
    | apply silent_gets; intro
    | apply silent_bind; [frame| |]
    | apply silent_when
    | apply silent_update
    | apply silent_ret
    | match goal with
      | |- silent (if ?c then _ else _) => destruct c
      end ].

Ltac open_call :=
  cbn [call defineIn componentIn];
  unfold describe, setOpenapi, defineInfo, server, defineServers,
    defineExternalDocs, securityRequirement, defineSecurityRequirements,
    defineTags, path, definePaths, defineComponents,
    callbackComponent, exampleComponent, headerComponent, linkComponent,
    parameterComponent, requestBodyComponent, responseComponent,
    schemaComponent, securitySchemeComponent,
    defineCallbackComponents, defineExampleComponents,
    defineHeaderComponents, defineLinkComponents, defineParameterComponents,
    defineRequestBodyComponents, defineResponseComponents,
    defineSchemaComponents, defineSecuritySchemeComponents, defineCategory.

(** No mutation operation assigns [schemaFile] or [apiVersion]. *)
Lemma call_keeps_schemaFile (o : op) : preserves schemaFile (call o).
Proof. destruct o; try destruct c; open_call; frame. Qed.

Lemma call_keeps_apiVersion (o : op) : preserves apiVersion (call o).
Proof. destruct o; try destruct c; open_call; frame. Qed.

Lemma call_silent (o : op) : silent (call o).
Proof. destruct o; try destruct c; open_call; hush. Qed.

End Frame.
Import Frame.

(* ===================================================================== *)
(** ** Bootstrap and the memory-only mode                                 *)
(* ===================================================================== *)

Module Persistence.

(** The path [prepareFiles] resolves for a construction, when the
    constructor gets that far. *)
Definition bootstrap_path (env : Env) (apiVersion : string) (config : value)
  : option string :=
  match require env (projectRoot env ++ "/themis.config.json") with
  | None => None
  | Some incomingConfig =>
      match checkAndConstructConfig (config ?? incomingConfig) with
      | None => None
      | Some cfg => Some (schemaFilePath_of apiVersion (projectRoot env) cfg)
      end
  end.

(** The operations that end in a flush: all but [setOpenapi]. *)
Definition flushing (o : op) : bool :=
  match o with
  | SetOpenapi _ => false
  | _ => true
  end.



Lemma loadFromFile_keeps_schemaFile (env : Env) :
  preserves schemaFile (loadFromFile env).
Proof. unfold loadFromFile, Log.e. frame. Qed.





(** With a file to write to, every flushing operation ends by dispatching
    the write of the document it produced. *)
Lemma call_writes (o : op) (w : World) :
  flushing o = true ->
  truthy (schemaFile (this w)) = true ->
  exists older,
    flushes (exec (call o) w)
    = (older ++ [WriteFile (to_string (schemaFile (this w)))
                           (shaveDownToSpec (this (exec (call o) w)))
                           (SyncCb (apiVersion (this w)))])%list.
Proof.
  intros Hf Hw.
  destruct o; try discriminate; try destruct c; open_call;
    eexists; rewrite this_syncWrap;
    (apply syncWrap_writes; [frame | frame | exact Hw]).
Qed.

(** What the constructor leaves behind when it returns. *)
Lemma constructor_shape (env : Env) (apiVersion : string)
  (info config : value) (w0 : World) (p : string) :
  constructor env apiVersion info config = Some w0 ->
  bootstrap_path env apiVersion config = Some p ->
  this w0
  = with_schemaFile
      (if String.eqb (extname env p) ".json" then VStr p else VStr "")
      (with_info info (with_apiVersion apiVersion fresh))
  /\ flushes w0 = []
  /\ (String.eqb (extname env p) ".json" = false ->
      pending w0 = [CreateCb p apiVersion]).
Proof.
  unfold constructor, bootstrap_path.
  destruct (require env _) as [inc|]; [|discriminate].
  destruct (checkAndConstructConfig _) as [cfg|]; [|discriminate].
  intros Hc Hp. injection Hp as <-. revert Hc.
  unfold prepareFiles.
  set (p := schemaFilePath_of apiVersion (projectRoot env) cfg).
  set (docs := (projectRoot env ++ "/" ++ _ ++ "/")%string).
  destruct (String.eqb (extname env p) ".json") eqn:Hext;
    destruct (existsSync env docs); simpl;
    try destruct (mkdirSync_ok env docs); simpl;
    try discriminate;
    try discriminate;
    intros Hc; injection Hc as <-; rewrite !exec_gets; simpl;
    try match goal with
        | |- context [if ?c then _ else _] => destruct c
        end;
    repeat split; try reflexivity; try discriminate.
Qed.

Lemma resolved_path_truthy (apiVersion root : string) (cfg : value) :
  truthy (VStr (schemaFilePath_of apiVersion root cfg)) = true.
Proof.
  unfold schemaFilePath_of. simpl.
  destruct (root ++ _)%string eqn:E; [|reflexivity].
  exfalso. revert E. generalize (to_string (get cfg "docsDir")).
  intros d. destruct root; discriminate.
Qed.

(** A project in which the version is written with a trailing slash: the
    resolved file is [spec.v1/.json], a dot file, whose extension is
    empty.  Both directories exist, so the creation of the file can
    succeed. *)
Definition stray : Env :=
  Posix.platform ["/srv/app/themis/"; "/srv/app/themis/spec.v1/"].

Definition stray_path : string := "/srv/app/themis/spec.v1/.json".

Definition pets_info : value :=
  VObj [("title", VStr "Pets API"); ("version", VStr "1.0")].

Example stray_is_degraded :
  option_map (fun w => (schemaFile (this w), pending w))
             (constructor stray "v1/" pets_info VUndefined)
  = Some (VStr "", [CreateCb stray_path "v1/"]).
Proof. vm_compute. reflexivity. Qed.





End Persistence.

(* ===================================================================== *)
(** ** Tag names                                                          *)
(* ===================================================================== *)

Module Tags.

Import Merging.

(** The elements of a sequence-valued field; an absent field has none. *)
Definition contents (v : value) : list value :=
  match v with
  | VArr items => items
  | _ => []
  end.

Definition names (ts : list value) : list value :=
  map (fun t => get t "name") ts.

(** The names in the tags list are pairwise distinct. *)
Definition unique_tag_names (t : Themis) : Prop :=
  NoDup (names (contents (tags t))).

(** The stated invariant, for one construction and one sequence of later
    events. *)
Definition tag_names_unique_after (env : Env) (apiVersion : string)
  (info config : value) (es : list event) : Prop :=
  forall w0,
    constructor env apiVersion info config = Some w0 ->
    unique_tag_names (this (run env es w0)).

(** The tag fragment an operation hands to [defineTags], if any. *)
Definition tag_fragment (o : op) : option value :=
  match o with
  | DefineTags v => Some v
  | Describe d =>
      if truthy (get (VObj d) "tags") then Some (get (VObj d) "tags")
      else None
  | _ => None
  end.

(** The tags an event supplies, and whether the event is a mutation or a
    write completion whose tag fragment, if it has one, is a sequence (or
    nullish). *)
Definition supplied (e : event) : list value :=
  match e with
  | Call o => match tag_fragment o with
              | Some v => contents v
              | None => []
              end
  | _ => []
  end.

Definition tags_typed (e : event) : bool :=
  match e with
  | Call o => match tag_fragment o with
              | Some v => is_seq v
              | None => true
              end
  | Settle _ _ => true
  | Reload => false
  end.

Lemma coalesce_contents (v : value) :
  is_seq v = true -> v ?? VArr [] = VArr (contents v).
Proof. destruct v; simpl; try discriminate; reflexivity. Qed.

Lemma tags_defineTags_seq (v : value) (w : World) :
  is_seq (tags (this w)) = true -> is_seq v = true ->
  tags (this (exec (defineTags v) w))
  = VArr (contents (tags (this w)) ++ contents v).
Proof.
  intros Hw Hv.
  rewrite tags_defineTags, (coalesce_contents _ Hw), (coalesce_contents _ Hv).
  apply merge_wrapped_seq.
Qed.

Lemma call_keeps_tags (o : op) :
  tag_fragment o = None -> preserves tags (call o).
Proof.
  destruct o as [d| | | | | | | | | | | |c ?|c ? ?]; intros H.
  1: { unfold tag_fragment in H. cbn [call]. unfold describe.
       destruct (truthy (get (VObj d) "tags")); [discriminate H|].
       change (when false (defineTags (get (VObj d) "tags")))
         with (ret tt).
       open_call. frame. }
  all: try discriminate H; try destruct c; open_call; frame.
Qed.

Lemma when_keeps_tags (c : bool) (o : op) (w : World) :
  tag_fragment o = None ->
  tags (this (exec (when c (call o)) w)) = tags (this w).
Proof. intros H. apply preserves_when. now apply call_keeps_tags. Qed.

(** [describe] with tags forwards them to [defineTags]; the operations it
    runs before leave the tags alone. *)
Lemma tags_describe (d : list (string * value)) (w : World) :
  truthy (get (VObj d) "tags") = true ->
  is_seq (tags (this w)) = true ->
  is_seq (get (VObj d) "tags") = true ->
  tags (this (exec (describe d) w))
  = VArr (contents (tags (this w)) ++ contents (get (VObj d) "tags")).
Proof.
  intros Ht Hw Hv. unfold describe.
  rewrite this_syncWrap, !exec_bind, Ht. cbn [when].
  set (g := get (VObj d)) in *.
  change (setOpenapi (g "openapi")) with (call (SetOpenapi (g "openapi"))).
  change (defineInfo (g "info")) with (call (DefineInfo (g "info"))).
  change (defineServers (g "servers"))
    with (call (DefineServers (g "servers"))).
  change (defineExternalDocs (g "externalDocs"))
    with (call (DefineExternalDocs (g "externalDocs"))).
  change (defineSecurityRequirements (g "security"))
    with (call (DefineSecurityRequirements (g "security"))).
  rewrite tags_defineTags_seq; trivial;
    rewrite !when_keeps_tags; trivial.
Qed.

Lemma settle_keeps_tags (cb : callback) (err : bool) :
  preserves tags (settle cb err).
Proof.
  intros w. unfold settle, exec.
  destruct (existsb (callback_eqb cb) (pending w)); [|reflexivity].
  destruct cb, err; reflexivity.
Qed.

Lemma step_tags (env : Env) (e : event) (w : World) :
  is_seq (tags (this w)) = true ->
  tags_typed e = true ->
  is_seq (tags (this (exec (step env e) w))) = true
  /\ contents (tags (this (exec (step env e) w)))
     = (contents (tags (this w)) ++ supplied e)%list.
Proof.
  intros Hw He.
  destruct e as [o | | cb err]; cbn [step tags_typed supplied] in *.
  - destruct (tag_fragment o) as [v|] eqn:Ho.
    + destruct o; try discriminate Ho; unfold tag_fragment in Ho.
      * destruct (truthy (get (VObj description) "tags")) eqn:Ht;
          [|discriminate Ho].
        injection Ho as <-. cbn [call].
        rewrite tags_describe; trivial. now split.
      * injection Ho as <-. cbn [call].
        rewrite tags_defineTags_seq; trivial. now split.
    + rewrite (call_keeps_tags o Ho w), app_nil_r. now split.
  - discriminate He.
  - rewrite (settle_keeps_tags cb err w), app_nil_r. now split.
Qed.

Lemma run_tags (env : Env) (es : list event) :
  forall w,
    is_seq (tags (this w)) = true ->
    forallb tags_typed es = true ->
    contents (tags (this (run env es w)))
    = (contents (tags (this w)) ++ flat_map supplied es)%list.
Proof.
  induction es as [|e es IH]; intros w Hw Hes; simpl.
  - now rewrite app_nil_r.
  - apply andb_true_iff in Hes as [He Hes].
    destruct (step_tags env e w Hw He) as [Hseq Hc].
    change (run env (e :: es) w) with (run env es (exec (step env e) w)).
    rewrite (IH _ Hseq Hes), Hc. now rewrite app_assoc.
Qed.

Lemma constructor_this (env : Env) (apiVersion : string)
  (info config : value) (w0 : World) :
  constructor env apiVersion info config = Some w0 ->
  tags (this w0) = VUndefined.
Proof.
  intros Hc.
  destruct (Persistence.bootstrap_path env apiVersion config) as [p|] eqn:Hp.
  - destruct (Persistence.constructor_shape _ _ _ _ _ _ Hc Hp) as [-> _].
    reflexivity.
  - exfalso. revert Hc Hp.
    unfold constructor, Persistence.bootstrap_path.
    destruct (require env _); [|discriminate].
    destruct (checkAndConstructConfig _); discriminate.
Qed.

(** An ordinary project: the resolved file is [spec.v1.json]. *)
Definition office : Env := Posix.platform ["/srv/app/themis/"].

Definition tag_owners : value :=
  VObj [("name", VStr "owners")].

(** C6 as stated fails: defining the tag [pets] twice leaves two tags
    named [pets] in the list. *)
Lemma C6_counterexample :
  ~ tag_names_unique_after office "v1" Persistence.pets_info VUndefined
      [Call (DefineTags (VArr [tag_pets]));
       Call (DefineTags (VArr [tag_pets]))].
Proof.
  intros H.
  destruct (constructor office "v1" Persistence.pets_info VUndefined)
    as [w0|] eqn:Hc; [|vm_compute in Hc; discriminate Hc].
  specialize (H w0 Hc). vm_compute in Hc. injection Hc as <-.
  vm_compute in H. apply NoDup_cons_iff in H as [Hin _].
  apply Hin. now left.
Qed.

(** C6, amended: along every sequence of mutation operations and write
    completions from construction, with tag fragments that are sequences
    (or nullish), the tags list is the concatenation in call order of the
    tags supplied to [defineTags] and [describe]; so the tag names of the
    state reached are pairwise distinct exactly when the names of all the
    supplied tags are.  The document does nothing to make them so. *)
Theorem C6_tags_are_the_supplied_ones
  (env : Env) (apiVersion : string) (info config : value)
  (w0 : World) (es : list event) :
  constructor env apiVersion info config = Some w0 ->
  forallb tags_typed es = true ->
  contents (tags (this (run env es w0))) = flat_map supplied es
  /\ (unique_tag_names (this (run env es w0))
      <-> NoDup (names (flat_map supplied es))).
Proof.
  intros Hc Hes.
  assert (Hrun : contents (tags (this (run env es w0)))
                 = flat_map supplied es).
  { rewrite run_tags; trivial; rewrite (constructor_this _ _ _ _ _ Hc);
      reflexivity. }
  split; [exact Hrun|].
  unfold unique_tag_names. now rewrite Hrun.
Qed.

Definition tagging_session : list event :=
  [Call (DefineTags (VArr [tag_pets]));
   Call (Path "/pets" (VObj []));
   Settle (SyncCb "v1") false;
   Call (Describe [("tags", VArr [tag_owners])])].

(** Two tags with different names, a path in between and a completed
    write: the names stay distinct. *)
Lemma C6_witness :
  exists w0,
    constructor office "v1" Persistence.pets_info VUndefined = Some w0
    /\ unique_tag_names (this (run office tagging_session w0)).
Proof.
  destruct (constructor office "v1" Persistence.pets_info VUndefined)
    as [w0|] eqn:Hc; [|vm_compute in Hc; discriminate Hc].
  exists w0. split; [reflexivity|].
  apply (proj2 (C6_tags_are_the_supplied_ones
                  office "v1" Persistence.pets_info VUndefined w0
                  tagging_session Hc eq_refl)).
  vm_compute. constructor.
  - intros [H | []]. discriminate H.
  - constructor; [intros [] | constructor].
Defined.

End Tags.

(* ===================================================================== *)
(** ** Object literals                                                    *)
(* ===================================================================== *)

Module Literal.

(** The key of the array element (or string character) at index [i]. *)
Definition index_key (i : nat) : string :=
  NilZero.string_of_uint (Nat.to_uint i).

Fixpoint indexed (i : nat) (xs : list value) : list (string * value) :=
  match xs with
  | [] => []
  | x :: rest => (index_key i, x) :: indexed (S i) rest
  end.

(** The properties a field list stands for, each key once: [get] reads the
    first entry of a key, so that entry is the property. *)
Fixpoint own (fs : list (string * value)) : list (string * value) :=
  match fs with
  | [] => []
  | (k, v) :: rest =>
      (k, v) :: filter (fun kv => negb (String.eqb (fst kv) k)) (own rest)
  end.

(** The own enumerable properties [{...v}] copies: the fields of an
    object, the elements of an array and the characters of a string under
    their indices, nothing for the other values. *)
Definition spread (v : value) : list (string * value) :=
  match v with
  | VObj fs => own fs
  | VArr xs => own (indexed 0 xs)
  | VStr s =>
      own (indexed 0 (map (fun c => VStr (String c EmptyString))
                          (list_ascii_of_string s)))
  | _ => []
  end.

(** One member of an object literal: [...v] or [k: v]. *)
Inductive member : Type :=
| Spread (v : value)
| Field (k : string) (v : value).

Definition put_all (fs acc : list (string * value)) : list (string * value) :=
  fold_left (fun a kv => assign (fst kv) (snd kv) a) fs acc.

Definition put (acc : list (string * value)) (m : member)
  : list (string * value) :=
  match m with
  | Spread v => put_all (spread v) acc
  | Field k v => assign k v acc
  end.

(** The fields of [{ m1, m2, ... }], members evaluated left to right.  The
    order of the fields is the order of first insertion; the places that
    JavaScript gives to integer-like keys are not modelled, so properties
    of literals are stated through [get]. *)
Definition fields_of (ms : list member) : list (string * value) :=
  fold_left put ms [].

Definition object (ms : list member) : value := VObj (fields_of ms).

(** The property [k] that a spread of [v] copies, if any. *)
Definition own_get (v : value) (k : string) : option value :=
  lookup k (spread v).

(** The member that decides the property [k] of a literal: the last one
    that names it. *)
Fixpoint resolve (k : string) (ms : list member) : option value :=
  match ms with
  | [] => None
  | m :: rest =>
      match resolve k rest with
      | Some v => Some v
      | None =>
          match m with
          | Spread v => own_get v k
          | Field k' v => if String.eqb k' k then Some v else None
          end
      end
  end.

Lemma lookup_assign_same (k : string) (v : value) fs :
  lookup k (assign k v fs) = Some v.
Proof.
  induction fs as [|[k' v'] fs IH]; simpl.
  - now rewrite String.eqb_refl.
  - destruct (String.eqb k' k) eqn:E; simpl.
    + now rewrite String.eqb_refl.
    + now rewrite E.
Qed.

Lemma lookup_assign_other (k k' : string) (v : value) fs :
  k' <> k -> lookup k (assign k' v fs) = lookup k fs.
Proof.
  intros Hne. induction fs as [|[k0 v0] fs IH]; simpl.
  - apply String.eqb_neq in Hne. now rewrite Hne.
  - destruct (String.eqb k0 k') eqn:E; simpl.
    + apply String.eqb_eq in E. subst k0.
      apply String.eqb_neq in Hne. now rewrite Hne.
    + destruct (String.eqb k0 k); [reflexivity | exact IH].
Qed.

Lemma assign_same_value (k : string) (v : value) fs :
  lookup k fs = Some v -> assign k v fs = fs.
Proof.
  induction fs as [|[k0 v0] fs IH]; simpl; [discriminate|].
  destruct (String.eqb k0 k) eqn:E.
  - intros [= ->]. apply String.eqb_eq in E. now subst.
  - intros H. now rewrite IH.
Qed.

Lemma lookup_filter_other (k k0 : string) fs :
  k0 <> k ->
  lookup k (filter (fun kv => negb (String.eqb (fst kv) k0)) fs)
  = lookup k fs.
Proof.
  intros Hne. induction fs as [|[k1 v1] fs IH]; simpl; [reflexivity|].
  destruct (String.eqb k1 k0) eqn:E0; simpl.
  - apply String.eqb_eq in E0. subst k1.
    apply String.eqb_neq in Hne. now rewrite Hne.
  - destruct (String.eqb k1 k); [reflexivity | exact IH].
Qed.

Lemma lookup_own (k : string) fs : lookup k (own fs) = lookup k fs.
Proof.
  induction fs as [|[k0 v0] fs IH]; simpl; [reflexivity|].
  destruct (String.eqb k0 k) eqn:E; [reflexivity|].
  rewrite lookup_filter_other; [exact IH|].
  now apply String.eqb_neq.
Qed.

Lemma lookup_absent (k : string) fs :
  ~ In k (map fst fs) -> lookup k fs = None.
Proof.
  induction fs as [|[k0 v0] fs IH]; simpl; [reflexivity|].
  intros H. destruct (String.eqb k0 k) eqn:E.
  - apply String.eqb_eq in E. tauto.
  - apply IH. tauto.
Qed.

Lemma own_keys_nodup fs : NoDup (map fst (own fs)).
Proof.
  induction fs as [|[k0 v0] fs IH]; simpl; constructor.
  - intros Hin. apply in_map_iff in Hin as [[k1 v1] [Hk Hin]].
    apply filter_In in Hin as [_ Hf]. simpl in *. subst k1.
    now rewrite String.eqb_refl in Hf.
  - clear -IH. induction (own fs) as [|[k1 v1] l IHl]; simpl; [constructor|].
    inversion IH; subst.
    destruct (String.eqb k1 k0); simpl; [now apply IHl|].
    constructor; [|now apply IHl].
    intros Hin. apply in_map_iff in Hin as [[k2 v2] [Hk Hin]].
    apply filter_In in Hin as [Hin _]. simpl in Hk. subst k2.
    apply H1. apply in_map_iff. now exists (k1, v2).
Qed.

Lemma spread_keys_nodup (v : value) : NoDup (map fst (spread v)).
Proof. destruct v; simpl; try constructor; apply own_keys_nodup. Qed.

Lemma lookup_put_all (k : string) fs :
  NoDup (map fst fs) ->
  forall acc,
    lookup k (put_all fs acc)
    = match lookup k fs with
      | Some v => Some v
      | None => lookup k acc
      end.
Proof.
  induction fs as [|[k0 v0] fs IH]; intros Hnd acc; simpl; [reflexivity|].
  inversion Hnd as [|? ? Hnotin Hnd']; subst.
  unfold put_all in *. simpl. rewrite (IH Hnd').
  destruct (String.eqb k0 k) eqn:E.
  - apply String.eqb_eq in E. subst k0.
    rewrite (lookup_absent _ _ Hnotin). apply lookup_assign_same.
  - destruct (lookup k fs); [reflexivity|].
    apply lookup_assign_other. now apply String.eqb_neq.
Qed.

Lemma lookup_put (k : string) (m : member) acc :
  lookup k (put acc m)
  = match resolve k [m] with
    | Some v => Some v
    | None => lookup k acc
    end.
Proof.
  destruct m as [v | k' v]; simpl.
  - unfold own_get. apply lookup_put_all, spread_keys_nodup.
  - destruct (String.eqb k' k) eqn:E.
    + apply String.eqb_eq in E. subst. apply lookup_assign_same.
    + apply lookup_assign_other. now apply String.eqb_neq.
Qed.

Lemma lookup_fold_put (k : string) (ms : list member) :
  forall acc,
    lookup k (fold_left put ms acc)
    = match resolve k ms with
      | Some v => Some v
      | None => lookup k acc
      end.
Proof.
  induction ms as [|m ms IH]; intros acc; simpl; [reflexivity|].
  rewrite IH. destruct (resolve k ms); [reflexivity|].
  rewrite lookup_put. simpl. reflexivity.
Qed.

(** Reading a literal: the last member that names the key decides. *)
Lemma get_object (ms : list member) (k : string) :
  get (object ms) k
  = match resolve k ms with Some v => v | None => VUndefined end.
Proof.
  unfold object, fields_of. simpl. rewrite lookup_fold_put.
  now destruct (resolve k ms).
Qed.

Lemma own_get_object (fs : list (string * value)) (k : string) :
  own_get (VObj fs) k = lookup k fs.
Proof. apply lookup_own. Qed.

End Literal.
Import Literal.

(* ===================================================================== *)
(** ** The catalog of schema, content and parameter builders              *)
(* ===================================================================== *)

Module Catalog.

Definition BOOLEAN : value := VObj [("type", VStr "boolean")].
Definition STRING : value := VObj [("type", VStr "string")].
Definition UUID : value :=
  VObj [("type", VStr "string"); ("format", VStr "uuid")].
Definition EMAIL : value :=
  VObj [("type", VStr "string"); ("format", VStr "email")].
Definition PASSWORD : value :=
  VObj [("type", VStr "string"); ("format", VStr "password")].
Definition DATE : value :=
  VObj [("type", VStr "string"); ("format", VStr "date")].
Definition DATETIME : value :=
  VObj [("type", VStr "string"); ("format", VStr "date-time")].
Definition BYTE : value :=
  VObj [("type", VStr "string"); ("format", VStr "byte")].
Definition BINARY : value :=
  VObj [("type", VStr "string"); ("format", VStr "binary")].
Definition INTEGER : value := VObj [("type", VStr "integer")].
Definition NUMBER : value := VObj [("type", VStr "number")].
Definition INT32 : value :=
  VObj [("type", VStr "number"); ("format", VStr "int32")].
Definition INT64 : value :=
  VObj [("type", VStr "number"); ("format", VStr "int64")].
Definition FLOAT : value :=
  VObj [("type", VStr "number"); ("format", VStr "float")].
Definition DOUBLE : value :=
  VObj [("type", VStr "number"); ("format", VStr "double")].

(** [ENUM] *)
Definition ENUM (items : value) : value :=
  object [Field "type" (VStr "string"); Field "enum" items].

(** [if (!!v) returnable[k] = v;] *)
Definition set_if_truthy (k : string) (v : value) (returnable : value)
  : value :=
  if truthy v then set returnable k v else returnable.

(** [ARRAY]; an omitted argument is [VUndefined]. *)
Definition ARRAY (items example extend : value) : value :=
  let returnable :=
    object [Spread extend; Field "type" (VStr "array"); Field "items" items]
  in
  set_if_truthy "example" example returnable.

(** [OBJECT] *)
Definition OBJECT (properties required example extend : value) : value :=
  let returnable :=
    object [Spread extend; Field "type" (VStr "object");
            Field "properties" properties] in
  set_if_truthy "example" example
    (set_if_truthy "required" required returnable).

(** [ONEOF] *)
Definition ONEOF (schemas : value) : value :=
  object [Spread (OBJECT (VObj []) VUndefined VUndefined VUndefined);
          Field "oneOf" schemas].

(** [EXTEND] *)
Definition EXTEND (schema extension : value) : value :=
  object [Spread schema; Spread extension].

(** The elements [...v] passes to a call: those of an array, the
    characters of a string; [None] when [v] is not iterable and the spread
    throws. *)
Definition iterate (v : value) : option (list value) :=
  match v with
  | VArr xs => Some xs
  | VStr s =>
      Some (map (fun c => VStr (String c EmptyString))
                (list_ascii_of_string s))
  | _ => None
  end.

(** [EXTENDPROPERTIES].  [_required] is the very array the caller's schema
    holds (the copy [{ ...schema }] is shallow), so [push] grows it in the
    caller's schema too: the function returns its result together with
    the schema as the caller finds it afterwards.  [None] when the call
    throws: [_required] is neither nullish nor an array, or [required] is
    not iterable.  The schema is taken to be a tree: no array sits at two
    places of it. *)
Definition EXTENDPROPERTIES (schema properties required : value)
  : option (value * value) :=
  let _schema := object [Spread schema] in
  let items := get _schema "items" in
  let _properties :=
    object [Spread (if truthy items then get items "properties"
                    else get _schema "properties");
            Spread properties] in
  let _required :=
    if truthy items then get items "required" else get _schema "required" in
  let pushed :=
    if nullish _required then Some (_required, schema)
    else
      match _required, iterate (required ?? VArr []) with
      | VArr xs, Some ys =>
          let grown := VArr (xs ++ ys) in
          Some (grown,
                if truthy items
                then set schema "items" (set items "required" grown)
                else set schema "required" grown)
      | _, _ => None
      end in
  match pushed with
  | None => None
  | Some (_required, schema_after) =>
      Some (if truthy items
            then object [Spread _schema;
                         Field "items"
                           (object [Spread items;
                                    Field "required" _required;
                                    Field "properties"
                                      (object [Spread _properties])])]
            else object [Spread _schema;
                         Field "required" _required;
                         Field "properties" (object [Spread _properties])],
            schema_after)
  end.

(** [Example] *)
Definition Example (example extension : value) : value :=
  object [Spread (extension ?? VObj []); Field "example" example].

(** [ExampleError] *)
Definition ExampleError (error extension : value) : value :=
  Example (object [Field "error" error]) extension.

(** [ExampleData] *)
Definition ExampleData (data extension : value) : value :=
  Example (object [Field "data" data]) extension.

(** [JsonContent] *)
Definition JsonContent (schema extend : value) : value :=
  object [Field "application/json"
            (object [Spread extend; Field "schema" schema])].

(** [MultipartContent] *)
Definition MultipartContent (schema extend : value) : value :=
  object [Field "multipart/form-data"
            (object [Spread extend; Field "schema" schema])].

(** [Body] *)
Definition Body (content extend : value) : value :=
  object [Field "required" (VBool true); Spread extend;
          Field "content" content].

(** [ExtendParameter] *)
Definition ExtendParameter (parameter extension : value) : value :=
  object [Spread parameter; Spread extension].

(** [InQuery] *)
Definition InQuery (name : string) (schema extend : value) : value :=
  object [Spread extend; Field "name" (VStr name);
          Field "in" (VStr "query"); Field "schema" schema].

(** [InPath] *)
Definition InPath (name : string) (schema extend : value) : value :=
  object [Spread extend; Field "name" (VStr name); Field "in" (VStr "path");
          Field "schema" schema; Field "required" (VBool true)].

(** [InCookie] *)
Definition InCookie (name : string) (schema extend : value) : value :=
  object [Spread extend; Field "name" (VStr name);
          Field "in" (VStr "cookie"); Field "schema" schema].

(** [InHeader] *)
Definition InHeader (name : string) (schema extend : value) : value :=
  object [Spread extend; Field "name" (VStr name);
          Field "in" (VStr "header"); Field "schema" schema].

(** [Themis.data] and [Themis.error], the two static wrappers of the
    class. *)
Definition data (schema : value) : value :=
  object [Field "type" (VStr "object");
          Field "properties" (object [Field "data" (object [Spread schema])]);
          Field "required" (VArr [VStr "data"])].

Definition error (schema : value) : value :=
  object [Field "type" (VStr "object");
          Field "properties"
            (object [Field "error" (object [Spread schema])]);
          Field "required" (VArr [VStr "error"])].

End Catalog.
Import Catalog.

(* ===================================================================== *)
(** ** Properties of the builders                                         *)
(* ===================================================================== *)

Module Builders.

(** The property [k] as a spread of [v] hands it on. *)
Definition own_prop (v : value) (k : string) : value :=
  match own_get v k with
  | Some x => x
  | None => VUndefined
  end.

Lemma own_prop_object (fs : list (string * value)) (k : string) :
  own_prop (VObj fs) k = get (VObj fs) k.
Proof. unfold own_prop. now rewrite own_get_object. Qed.

Lemma own_get_literal (ms : list member) (k : string) :
  own_get (object ms) k = resolve k ms.
Proof.
  unfold object, fields_of. rewrite own_get_object, lookup_fold_put.
  now destruct (resolve k ms).
Qed.

Lemma get_set_same (fs : list (string * value)) (k : string) (v : value) :
  get (set (VObj fs) k v) k = v.
Proof. simpl. now rewrite lookup_assign_same. Qed.

Lemma get_set_other (o : value) (k k' : string) (v : value) :
  k' <> k -> get (set o k' v) k = get o k.
Proof.
  intros H. destruct o; try reflexivity. simpl.
  now rewrite lookup_assign_other.
Qed.

(** Rewrites the tests of a variable key against the keys it is known to
    differ from. *)
Ltac other_keys :=
  repeat match goal with
    | H : ~ In ?k _ |- _ => simpl in H
    end;
  repeat match goal with
    | |- context [String.eqb ?a ?k] =>
        let E := fresh "E" in
        assert (E : String.eqb a k = false)
          by (apply String.eqb_neq; intros ?; tauto);
        rewrite E; clear E
    end.

Ltac read_literal :=
  repeat (rewrite get_object; cbn [resolve];
          cbv [String.eqb Ascii.eqb Bool.eqb]).

(** The four parameter builders fix [name], [in] and [schema] (and
    [InPath] fixes [required] to [true]) whatever the extension holds,
    also when the extension names one of those keys; every other property
    of the extension is handed on unchanged. *)
Theorem parameter_builders_fix_their_keys
  (name : string) (schema extend : value) :
  (get (InQuery name schema extend) "name" = VStr name
   /\ get (InQuery name schema extend) "in" = VStr "query"
   /\ get (InQuery name schema extend) "schema" = schema)
  /\ (get (InPath name schema extend) "name" = VStr name
      /\ get (InPath name schema extend) "in" = VStr "path"
      /\ get (InPath name schema extend) "schema" = schema
      /\ get (InPath name schema extend) "required" = VBool true)
  /\ (get (InCookie name schema extend) "name" = VStr name
      /\ get (InCookie name schema extend) "in" = VStr "cookie"
      /\ get (InCookie name schema extend) "schema" = schema)
  /\ (get (InHeader name schema extend) "name" = VStr name
      /\ get (InHeader name schema extend) "in" = VStr "header"
      /\ get (InHeader name schema extend) "schema" = schema)
  /\ (forall k, ~ In k ["name"; "in"; "schema"; "required"] ->
        get (InQuery name schema extend) k = own_prop extend k
        /\ get (InPath name schema extend) k = own_prop extend k
        /\ get (InCookie name schema extend) k = own_prop extend k
        /\ get (InHeader name schema extend) k = own_prop extend k).
Proof.
  unfold InQuery, InPath, InCookie, InHeader.
  repeat split; try (read_literal; reflexivity);
    rewrite get_object; cbn [resolve]; other_keys; reflexivity.
Qed.

(** [InQuery], [InCookie] and [InHeader] leave [required] to the
    extension, where [InPath] does not. *)
Lemma optional_parameters_take_required (name : string)
  (schema extend : value) :
  get (InQuery name schema extend) "required" = own_prop extend "required"
  /\ get (InCookie name schema extend) "required"
     = own_prop extend "required"
  /\ get (InHeader name schema extend) "required"
     = own_prop extend "required".
Proof. repeat split; unfold InQuery, InCookie, InHeader; now read_literal. Qed.

(** [Body] always carries the given content, and is required unless the
    extension has a [required] property of its own, which then wins. *)
Theorem body_required_by_default (content extend : value) :
  get (Body content extend) "content" = content
  /\ get (Body content extend) "required"
     = match own_get extend "required" with
       | Some r => r
       | None => VBool true
       end
  /\ (forall k, ~ In k ["content"; "required"] ->
        get (Body content extend) k = own_prop extend k).
Proof.
  unfold Body. repeat split.
  - now read_literal.
  - read_literal. now destruct (own_get extend "required").
  - intros k Hk. rewrite get_object. cbn [resolve]. other_keys.
    unfold own_prop. now destruct (own_get extend k).
Qed.

(** The content builders return a map with the one media type, under
    which the given schema sits whatever the extension says of [schema];
    the other properties of the extension are handed on. *)
Theorem content_builders_hold_the_schema (schema extend : value) :
  get (get (JsonContent schema extend) "application/json") "schema" = schema
  /\ get (get (MultipartContent schema extend) "multipart/form-data")
         "schema" = schema
  /\ (forall k, k <> "application/json" ->
        get (JsonContent schema extend) k = VUndefined)
  /\ (forall k, k <> "multipart/form-data" ->
        get (MultipartContent schema extend) k = VUndefined)
  /\ (forall k, k <> "schema" ->
        get (get (JsonContent schema extend) "application/json") k
        = own_prop extend k
        /\ get (get (MultipartContent schema extend) "multipart/form-data") k
           = own_prop extend k).
Proof.
  unfold JsonContent, MultipartContent. repeat split.
  - now read_literal.
  - now read_literal.
  - intros k Hk. rewrite get_object. cbn [resolve].
    apply not_eq_sym, String.eqb_neq in Hk. now rewrite Hk.
  - intros k Hk. rewrite get_object. cbn [resolve].
    apply not_eq_sym, String.eqb_neq in Hk. now rewrite Hk.
  - rewrite get_object. cbn [resolve]. cbv [String.eqb Ascii.eqb Bool.eqb].
    rewrite get_object. cbn [resolve].
    apply not_eq_sym, String.eqb_neq in H. now rewrite H.
  - rewrite get_object. cbn [resolve]. cbv [String.eqb Ascii.eqb Bool.eqb].
    rewrite get_object. cbn [resolve].
    apply not_eq_sym, String.eqb_neq in H. now rewrite H.
Qed.

Lemma get_set_literal (ms : list member) (k : string) (v : value) :
  get (set (object ms) k v) k = v.
Proof. apply get_set_same. Qed.

(** [ARRAY] and [OBJECT] fix [type] and their own argument ([items],
    [properties]) whatever the extension holds.  The optional arguments
    are recorded only when truthy: a falsy [example] (0, the empty
    string, [false], [null]) or a falsy [required] is not recorded, and
    the property of that name in the extension, if any, shows instead. *)
Theorem array_and_object_schemas
  (items properties required example extend : value) :
  (get (ARRAY items example extend) "type" = VStr "array"
   /\ get (ARRAY items example extend) "items" = items
   /\ get (ARRAY items example extend) "example"
      = (if truthy example then example else own_prop extend "example"))
  /\ (get (OBJECT properties required example extend) "type" = VStr "object"
      /\ get (OBJECT properties required example extend) "properties"
         = properties
      /\ get (OBJECT properties required example extend) "required"
         = (if truthy required then required
            else own_prop extend "required")
      /\ get (OBJECT properties required example extend) "example"
         = (if truthy example then example else own_prop extend "example"))
  /\ (forall k, ~ In k ["type"; "items"; "example"] ->
        get (ARRAY items example extend) k = own_prop extend k)
  /\ (forall k, ~ In k ["type"; "properties"; "required"; "example"] ->
        get (OBJECT properties required example extend) k
        = own_prop extend k).
Proof.
  unfold ARRAY, OBJECT, set_if_truthy.
  repeat split.
  - destruct (truthy example);
      [rewrite get_set_other by discriminate|]; now read_literal.
  - destruct (truthy example);
      [rewrite get_set_other by discriminate|]; now read_literal.
  - destruct (truthy example);
      [apply get_set_literal | now read_literal].
  - destruct (truthy example), (truthy required);
      rewrite ?get_set_other by discriminate; now read_literal.
  - destruct (truthy example), (truthy required);
      rewrite ?get_set_other by discriminate; now read_literal.
  - destruct (truthy example), (truthy required);
      rewrite ?get_set_other by discriminate;
      try apply get_set_literal; now read_literal.
  - destruct (truthy example), (truthy required);
      try apply get_set_same;
      rewrite ?get_set_other by discriminate; now read_literal.
  - intros k H. simpl in H.
    destruct (truthy example);
      [rewrite get_set_other by (intros ?; tauto)|];
      rewrite get_object; cbn [resolve]; other_keys; reflexivity.
  - intros k H. simpl in H.
    destruct (truthy example), (truthy required);
      rewrite ?get_set_other by (intros ?; tauto);
      rewrite get_object; cbn [resolve]; other_keys; reflexivity.
Qed.

(** [EXTEND] (and [ExtendParameter], which has the same body) is a
    right-biased union: a property of the extension wins, any other
    property is the schema's.  Nothing stops the extension from replacing
    [type], [format] or [enum].  Read property by property, extending is
    associative, and extending twice by the same extension is extending
    once. *)
Theorem extend_is_right_biased_union (a b c : value) (k : string) :
  get (EXTEND a b) k
  = match own_get b k with Some v => v | None => own_prop a k end
  /\ get (ExtendParameter a b) k = get (EXTEND a b) k
  /\ get (EXTEND (EXTEND a b) c) k = get (EXTEND a (EXTEND b c)) k
  /\ get (EXTEND (EXTEND a b) b) k = get (EXTEND a b) k.
Proof.
  unfold ExtendParameter, EXTEND, own_prop.
  rewrite !get_object. cbn [resolve]. rewrite !own_get_literal.
  cbn [resolve].
  repeat split;
    destruct (own_get c k), (own_get b k), (own_get a k); reflexivity.
Qed.

Example extend_can_replace_the_type :
  get (EXTEND UUID (VObj [("type", VStr "number")])) "type" = VStr "number"
  /\ get (EXTEND UUID (VObj [("type", VStr "number")])) "format"
     = VStr "uuid".
Proof. split; reflexivity. Qed.

(** [Example] records the given example under [example] whatever the
    extension holds, also an [undefined] one, and hands on the other
    properties of the extension; [ExampleError] and [ExampleData] record
    the example wrapped under [error] and [data]. *)
Theorem example_builders_record_the_example
  (example extension : value) (k : string) :
  get (Example example extension) "example" = example
  /\ get (get (ExampleError example extension) "example") "error" = example
  /\ get (get (ExampleData example extension) "example") "data" = example
  /\ (k <> "example" ->
      get (Example example extension) k
      = own_prop (extension ?? VObj []) k
      /\ get (ExampleError example extension) k
         = own_prop (extension ?? VObj []) k
      /\ get (ExampleData example extension) k
         = own_prop (extension ?? VObj []) k).
Proof.
  unfold ExampleError, ExampleData, Example. repeat split.
  - now read_literal.
  - now read_literal.
  - now read_literal.
  - rewrite get_object. cbn [resolve].
    apply not_eq_sym, String.eqb_neq in H. now rewrite H.
  - rewrite get_object. cbn [resolve].
    apply not_eq_sym, String.eqb_neq in H. now rewrite H.
  - rewrite get_object. cbn [resolve].
    apply not_eq_sym, String.eqb_neq in H. now rewrite H.
Qed.

Lemma example_witness :
  get (Example (VNum 3) (VObj [("summary", VStr "three")])) "summary"
  = VStr "three".
Proof.
  apply (proj1 (proj2 (proj2 (proj2 (example_builders_record_the_example
           (VNum 3) (VObj [("summary", VStr "three")]) "summary")))
           ltac:(discriminate))).
Defined.

(** The two static wrappers of the class put a copy of the schema under
    the single member [data] (or [error]) of an object schema and require
    that member: every property of the schema reads the same under the
    wrapper. *)
Theorem envelopes_wrap_a_copy (schema : value) (k : string) :
  get (get (get (data schema) "properties") "data") k = own_prop schema k
  /\ get (get (get (error schema) "properties") "error") k
     = own_prop schema k
  /\ get (data schema) "required" = VArr [VStr "data"]
  /\ get (error schema) "required" = VArr [VStr "error"]
  /\ get (get (data schema) "properties") "error" = VUndefined
  /\ get (get (error schema) "properties") "data" = VUndefined.
Proof.
  unfold data, error. repeat split; read_literal; try reflexivity;
    rewrite get_object; cbn [resolve]; reflexivity.
Qed.

Definition deprecated_note : value :=
  VObj [("deprecated", VBool true); ("required", VBool false);
        ("in", VStr "body")].

(** An extension that names [in] and [required] and one more key: the
    builder's own [in] stays, and the other key comes through. *)
Lemma parameter_builders_witness :
  get (InPath "petId" UUID deprecated_note) "deprecated" = VBool true.
Proof.
  apply (proj2 (proj2 (proj2 (proj2 (parameter_builders_fix_their_keys
           "petId" UUID deprecated_note)))) "deprecated").
  simpl. intuition discriminate.
Defined.

Lemma body_witness :
  get (Body (JsonContent STRING VUndefined) deprecated_note) "deprecated"
  = VBool true.
Proof.
  apply (proj2 (proj2 (body_required_by_default
                         (JsonContent STRING VUndefined) deprecated_note))
           "deprecated").
  simpl. intuition discriminate.
Defined.

Lemma content_builders_witness :
  get (JsonContent STRING deprecated_note) "text/plain" = VUndefined.
Proof.
  apply (proj1 (proj2 (proj2 (content_builders_hold_the_schema
                                STRING deprecated_note))) "text/plain").
  discriminate.
Defined.

Lemma array_and_object_witness :
  get (OBJECT (VObj [("id", UUID)]) VUndefined (VNum 0) deprecated_note)
      "deprecated"
  = VBool true.
Proof.
  apply (proj2 (proj2 (proj2 (array_and_object_schemas
                                VUndefined (VObj [("id", UUID)]) VUndefined
                                (VNum 0) deprecated_note))) "deprecated").
  simpl. intuition discriminate.
Defined.

(** *** [EXTENDPROPERTIES] *)

Lemma get_copy (fs : list (string * value)) (k : string) :
  get (object [Spread (VObj fs)]) k = get (VObj fs) k.
Proof.
  rewrite get_object. cbn [resolve]. rewrite own_get_object. reflexivity.
Qed.

(** An object schema that is not an array schema (no truthy [items]). *)
Definition plain (schema : value) : Prop :=
  exists fs, schema = VObj fs /\ truthy (get schema "items") = false.

(** The [required] list of an extended plain schema.  When the schema has
    no [required] list the [required] argument is dropped: the result has
    none either, and the call cannot throw.  When the schema has one, the
    result's list is the schema's followed by the given names, and the
    call throws when the argument cannot be iterated; it also throws when
    the schema's [required] is there but is not an array. *)
Theorem extendproperties_required (schema properties required : value) :
  plain schema ->
  (nullish (get schema "required") = true ->
   exists result,
     EXTENDPROPERTIES schema properties required = Some (result, schema)
     /\ get result "required" = get schema "required")
  /\ (forall xs,
        get schema "required" = VArr xs ->
        match iterate (required ?? VArr []) with
        | Some ys =>
            exists result after,
              EXTENDPROPERTIES schema properties required
              = Some (result, after)
              /\ get result "required" = VArr (xs ++ ys)
        | None => EXTENDPROPERTIES schema properties required = None
        end)
  /\ (nullish (get schema "required") = false ->
      (forall xs, get schema "required" <> VArr xs) ->
      EXTENDPROPERTIES schema properties required = None).
Proof.
  intros (fs & -> & Hitems).
  unfold EXTENDPROPERTIES. cbv zeta. rewrite !get_copy, Hitems.
  repeat split.
  - intros Hn. rewrite Hn. eexists. split; [reflexivity|].
    now read_literal.
  - intros xs Hx. rewrite Hx. cbn [nullish].
    destruct (iterate (required ?? VArr [])) as [ys|]; [|reflexivity].
    do 2 eexists. split; [reflexivity|]. now read_literal.
  - intros Hn Hx. rewrite Hn.
    destruct (get (VObj fs) "required") as [| | | | | xs |] eqn:E;
      try reflexivity.
    now destruct (Hx xs).
Qed.

Definition pet_schema : value :=
  VObj [("type", VStr "object");
        ("properties", VObj [("id", UUID)]);
        ("required", VArr [VStr "id"])].

Definition bare_schema : value :=
  VObj [("type", VStr "object"); ("properties", VObj [("id", UUID)])].

Lemma bare_schema_plain : plain bare_schema.
Proof. exists [("type", VStr "object"); ("properties", VObj [("id", UUID)])].
       split; reflexivity. Qed.

Lemma pet_schema_plain : plain pet_schema.
Proof. eexists. split; reflexivity. Qed.

(** Extending a schema without a [required] list by a property declared
    required: the name is not recorded. *)
Lemma extendproperties_required_witness :
  exists result,
    EXTENDPROPERTIES bare_schema (VObj [("name", STRING)])
                     (VArr [VStr "name"])
    = Some (result, bare_schema)
    /\ get result "required" = get bare_schema "required".
Proof.
  apply (proj1 (extendproperties_required bare_schema
                  (VObj [("name", STRING)]) (VArr [VStr "name"])
                  bare_schema_plain)).
  reflexivity.
Defined.

(** The call changes its argument: afterwards the caller's schema holds
    the grown [required] list and is otherwise as before; hence a second
    extension of the same schema starts from the names the first one
    added. *)
Theorem extendproperties_grows_the_argument
  (schema p1 p2 : value) (xs ys zs : list value) :
  plain schema ->
  get schema "required" = VArr xs ->
  exists r1 after,
    EXTENDPROPERTIES schema p1 (VArr ys) = Some (r1, after)
    /\ get after "required" = VArr (xs ++ ys)
    /\ (forall k, k <> "required" -> get after k = get schema k)
    /\ exists r2 after2,
         EXTENDPROPERTIES after p2 (VArr zs) = Some (r2, after2)
         /\ get r2 "required" = VArr ((xs ++ ys) ++ zs).
Proof.
  intros (fs & -> & Hitems) Hx.
  assert (Hafter : forall k, k <> "required" ->
            get (set (VObj fs) "required" (VArr (xs ++ ys))) k
            = get (VObj fs) k).
  { intros k Hk. apply get_set_other. congruence. }
  unfold EXTENDPROPERTIES at 1. cbv zeta.
  rewrite !get_copy, Hitems, Hx. cbn [nullish coalesce iterate].
  do 2 eexists. split; [reflexivity|].
  split; [apply get_set_same|]. split; [exact Hafter|].
  unfold EXTENDPROPERTIES. cbv zeta. cbn [set].
  rewrite !get_copy.
  change (VObj (assign "required" (VArr (xs ++ ys)) fs))
    with (set (VObj fs) "required" (VArr (xs ++ ys))).
  rewrite (Hafter "items") by discriminate. rewrite Hitems.
  rewrite get_set_same. cbn [nullish coalesce iterate].
  do 2 eexists. split; [reflexivity|]. now read_literal.
Qed.

Lemma extendproperties_grows_witness :
  exists r1 after,
    EXTENDPROPERTIES pet_schema (VObj [("name", STRING)])
                     (VArr [VStr "name"]) = Some (r1, after)
    /\ get after "required" = VArr ([VStr "id"] ++ [VStr "name"])
    /\ (forall k, k <> "required" -> get after k = get pet_schema k)
    /\ exists r2 after2,
         EXTENDPROPERTIES after (VObj [("age", NUMBER)])
                          (VArr [VStr "age"]) = Some (r2, after2)
         /\ get r2 "required"
            = VArr (([VStr "id"] ++ [VStr "name"]) ++ [VStr "age"]).
Proof.
  apply (extendproperties_grows_the_argument pet_schema
           (VObj [("name", STRING)]) (VObj [("age", NUMBER)])
           [VStr "id"] [VStr "name"] [VStr "age"] pet_schema_plain).
  reflexivity.
Defined.

(** The properties of an extended schema are the schema's with the given
    ones laid over them: a given property wins over the schema's property
    of the same name.  For an array schema (truthy [items]) this happens
    inside [items], and the rest of the schema and of [items] is handed
    on; for a plain schema it happens at the top. *)
Theorem extendproperties_properties
  (fs : list (string * value)) (properties required result after : value)
  (k : string) :
  EXTENDPROPERTIES (VObj fs) properties required = Some (result, after) ->
  let schema := VObj fs in
  let items := get schema "items" in
  if truthy items
  then get (get (get result "items") "properties") k
       = match own_get properties k with
         | Some v => v
         | None => own_prop (get items "properties") k
         end
       /\ (forall j, j <> "items" -> get result j = get schema j)
       /\ (forall j, ~ In j ["required"; "properties"] ->
             get (get result "items") j = own_prop items j)
  else get (get result "properties") k
       = match own_get properties k with
         | Some v => v
         | None => own_prop (get schema "properties") k
         end
       /\ (forall j, ~ In j ["required"; "properties"] ->
             get result j = get schema j).
Proof.
  intros H. cbv zeta.
  unfold EXTENDPROPERTIES in H. cbv zeta in H. rewrite !get_copy in H.
  set (items := get (VObj fs) "items") in *. clearbody items.
  set (props := get (VObj fs) "properties") in *. clearbody props.
  match type of H with
  | context [match ?p with Some _ => _ | None => None end] =>
      destruct p as [[rq sa]|]; [|discriminate H]
  end.
  destruct (truthy items); injection H as <- <-.
  - repeat split.
    + read_literal.
      rewrite !own_get_literal. cbn [resolve]. unfold own_prop.
      now destruct (own_get properties k).
    + intros j Hj. rewrite get_object. cbn [resolve].
      apply not_eq_sym, String.eqb_neq in Hj. rewrite Hj.
      rewrite own_get_literal. cbn [resolve]. rewrite own_get_object.
      reflexivity.
    + intros j Hj. simpl in Hj.
      rewrite get_object. cbn [resolve].
      cbv [String.eqb Ascii.eqb Bool.eqb].
      rewrite get_object. cbn [resolve]. other_keys. reflexivity.
  - repeat split.
    + read_literal.
      rewrite !own_get_literal. cbn [resolve]. unfold own_prop.
      now destruct (own_get properties k).
    + intros j Hj. simpl in Hj. rewrite get_object. cbn [resolve].
      other_keys. rewrite own_get_literal. cbn [resolve].
      rewrite own_get_object. reflexivity.
Qed.

Definition pets_page : value :=
  VObj [("type", VStr "array");
        ("items", VObj [("type", VStr "object");
                        ("properties", VObj [("id", UUID)])])].

(** Extending the element schema of an array schema: the new property
    lands under [items.properties]. *)
Lemma extendproperties_properties_witness :
  exists result,
    get (get (get result "items") "properties") "name" = STRING
    /\ get (get (get result "items") "properties") "id" = UUID
    /\ get result "type" = VStr "array".
Proof.
  destruct (EXTENDPROPERTIES pets_page (VObj [("name", STRING)]) VUndefined)
    as [[result after]|] eqn:E; [|vm_compute in E; discriminate E].
  exists result.
  pose proof (extendproperties_properties _ _ _ _ _ "name" E) as Hn.
  pose proof (extendproperties_properties _ _ _ _ _ "id" E) as Hi.
  cbv zeta in Hn, Hi.
  change (truthy (get pets_page "items")) with true in Hn, Hi.
  destruct Hn as (Hn & Ht & _). destruct Hi as (Hi & _).
  split; [exact Hn|]. split; [exact Hi|].
  apply (Ht "type"). discriminate.
Defined.

End Builders.

(* ===================================================================== *)
(** ** Configuration and bootstrap                                        *)
(* ===================================================================== *)

Module Bootstrap.

Import Builders.

(** The value [checkAndConstructConfig] settles on for one of its two
    keys: the configured one when it is truthy and differs from the
    default, the default otherwise. *)
Definition settled (configured : value) (default : string) : value :=
  if truthy configured && strict_neq_str configured default
  then configured else VStr default.

Lemma settled_truthy (v : value) (d : string) :
  d <> "" -> truthy (settled v d) = true.
Proof.
  intros Hd. unfold settled.
  destruct (truthy v && strict_neq_str v d) eqn:E.
  - now apply andb_true_iff in E.
  - simpl. apply String.eqb_neq in Hd. now rewrite Hd.
Qed.

Lemma settled_again (v : value) (d : string) :
  settled (settled v d) d = settled v d.
Proof.
  unfold settled at 2.
  destruct (truthy v && strict_neq_str v d) eqn:E.
  - unfold settled. now rewrite E.
  - unfold settled. rewrite E. cbn [truthy strict_neq_str].
    now rewrite String.eqb_refl, andb_false_r.
Qed.

Lemma checkAndConstructConfig_fields (config : value) :
  nullish config = false ->
  checkAndConstructConfig config
  = Some (VObj (assign "schemaFilePrefix"
                  (settled (get config "schemaFilePrefix") "spec.")
                  (assign "docsDir" (settled (get config "docsDir") "themis")
                     match config with VObj fs => fs | _ => [] end))).
Proof.
  intros Hn. unfold checkAndConstructConfig. rewrite Hn. reflexivity.
Qed.

(** [checkAndConstructConfig] throws exactly on a nullish configuration.
    Otherwise the configuration it returns has a truthy [docsDir] and a
    truthy [schemaFilePrefix] (the configured value when that is truthy,
    the default when it is missing, empty or otherwise falsy), keeps every
    other key of the given configuration, and is a fixed point: checking
    it again returns it unchanged. *)
Theorem checkAndConstructConfig_settles (config : value) :
  (checkAndConstructConfig config = None <-> nullish config = true)
  /\ (forall cfg,
        checkAndConstructConfig config = Some cfg ->
        get cfg "docsDir" = settled (get config "docsDir") "themis"
        /\ get cfg "schemaFilePrefix"
           = settled (get config "schemaFilePrefix") "spec."
        /\ truthy (get cfg "docsDir") = true
        /\ truthy (get cfg "schemaFilePrefix") = true
        /\ (forall k, ~ In k ["docsDir"; "schemaFilePrefix"] ->
              get cfg k = get config k)
        /\ checkAndConstructConfig cfg = Some cfg).
Proof.
  split.
  - unfold checkAndConstructConfig.
    destruct (nullish config); split; intros H; try reflexivity;
      discriminate H.
  - intros cfg H.
    destruct (nullish config) eqn:Hn.
    { unfold checkAndConstructConfig in H. rewrite Hn in H.
      discriminate H. }
    rewrite (checkAndConstructConfig_fields _ Hn) in H.
    injection H as <-.
    set (dd := settled (get config "docsDir") "themis").
    set (sp := settled (get config "schemaFilePrefix") "spec.").
    set (base := match config with VObj fs => fs | _ => [] end).
    assert (Hd : get (VObj (assign "schemaFilePrefix" sp
                              (assign "docsDir" dd base))) "docsDir" = dd).
    { simpl. rewrite lookup_assign_other by discriminate.
      now rewrite lookup_assign_same. }
    assert (Hs : get (VObj (assign "schemaFilePrefix" sp
                              (assign "docsDir" dd base)))
                     "schemaFilePrefix" = sp).
    { simpl. now rewrite lookup_assign_same. }
    split; [exact Hd|]. split; [exact Hs|].
    split; [rewrite Hd; apply settled_truthy; discriminate|].
    split; [rewrite Hs; apply settled_truthy; discriminate|].
    split.
    + intros k Hk. simpl in Hk. simpl.
      rewrite !lookup_assign_other by (intros ?; tauto).
      subst base. destruct config; try reflexivity; discriminate Hn.
    + rewrite checkAndConstructConfig_fields by reflexivity.
      rewrite Hd, Hs. subst dd sp. rewrite !settled_again.
      do 2 f_equal.
      rewrite (assign_same_value "docsDir").
      * apply assign_same_value. apply lookup_assign_same.
      * rewrite lookup_assign_other by discriminate.
        apply lookup_assign_same.
Qed.

(** A configuration with an empty prefix: the default prefix is put in
    its place, the directory and the other key are kept, and checking the
    result again changes nothing. *)
Lemma checkAndConstructConfig_witness :
  exists cfg,
    checkAndConstructConfig
      (VObj [("docsDir", VStr "docs"); ("other", VNum 1);
             ("schemaFilePrefix", VStr "")]) = Some cfg
    /\ get cfg "schemaFilePrefix" = VStr "spec."
    /\ checkAndConstructConfig cfg = Some cfg.
Proof.
  eexists. split; [reflexivity|].
  pose proof (proj2 (checkAndConstructConfig_settles
                       (VObj [("docsDir", VStr "docs"); ("other", VNum 1);
                              ("schemaFilePrefix", VStr "")])) _ eq_refl)
    as (_ & Hs & _ & _ & _ & Hfix).
  split; [exact Hs | exact Hfix].
Defined.

(** The configuration the constructor works with: the argument, or the
    content of the configuration file when the argument is nullish, after
    [checkAndConstructConfig]. *)
Definition effective_config (env : Env) (config : value) : option value :=
  match require env (projectRoot env ++ "/themis.config.json") with
  | None => None
  | Some incomingConfig => checkAndConstructConfig (config ?? incomingConfig)
  end.

Definition docs_dir (env : Env) (cfg : value) : string :=
  projectRoot env ++ "/" ++ to_string (get cfg "docsDir") ++ "/".

(** What was done to the file system, console output left out. *)
Definition touches_disk (e : effect) : bool :=
  match e with
  | ConsoleLog _ _ _ => false
  | _ => true
  end.

Definition disk_effects (w : World) : list effect :=
  filter touches_disk (io w).

(** The writes and the callbacks a returning construction leaves behind,
    and the file it settles on. *)
Lemma bootstrap_effects
  (env : Env) (apiVersion : string) (info config cfg : value) (w0 : World) :
  effective_config env config = Some cfg ->
  constructor env apiVersion info config = Some w0 ->
  let p := schemaFilePath_of apiVersion (projectRoot env) cfg in
  let d := docs_dir env cfg in
  let settled_file :=
    String.eqb (extname env p) ".json" && existsSync env p in
  disk_effects w0
  = ((if existsSync env d then [] else [MkdirSync d])
     ++ (if settled_file then []
         else [WriteFile p (VObj []) (CreateCb p apiVersion)]))%list
  /\ pending w0 = (if settled_file then [] else [CreateCb p apiVersion])
  /\ schemaFile (this w0)
     = (if String.eqb (extname env p) ".json" then VStr p else VStr "").
Proof.
  unfold effective_config, constructor.
  destruct (require env _) as [inc|]; [|discriminate].
  intros Hcfg. rewrite Hcfg. clear Hcfg.
  unfold prepareFiles, docs_dir. cbv zeta.
  pose proof (Persistence.resolved_path_truthy apiVersion (projectRoot env)
                cfg) as Hp.
  set (p := schemaFilePath_of apiVersion (projectRoot env) cfg) in *.
  set (d := (projectRoot env ++ "/" ++ _ ++ "/")%string).
  cbn [truthy] in Hp. apply negb_true_iff in Hp.
  destruct (String.eqb (extname env p) ".json") eqn:Hext;
    destruct (existsSync env d); simpl;
    try destruct (mkdirSync_ok env d); simpl;
    try discriminate;
    intros Hc; injection Hc as <-; rewrite !exec_gets; simpl;
    rewrite ?Hp; simpl;
    try destruct (existsSync env p); simpl;
    repeat split; reflexivity.
Qed.

(** The footprint of a construction that returns.  The directory is
    created exactly when it does not exist.  The file is written exactly
    when the extension check failed or the file does not exist, and what
    is written is the empty object, never the document; so constructing
    again over a file that exists leaves that file alone.  The document
    starts with [openapi] 3.0.0, the given [info], an empty path map and
    nothing else. *)
Theorem bootstrap_footprint
  (env : Env) (apiVersion : string) (info config cfg : value) (w0 : World) :
  effective_config env config = Some cfg ->
  constructor env apiVersion info config = Some w0 ->
  let p := schemaFilePath_of apiVersion (projectRoot env) cfg in
  let d := docs_dir env cfg in
  let settled_file :=
    String.eqb (extname env p) ".json" && existsSync env p in
  disk_effects w0
  = ((if existsSync env d then [] else [MkdirSync d])
     ++ (if settled_file then []
         else [WriteFile p (VObj []) (CreateCb p apiVersion)]))%list
  /\ pending w0 = (if settled_file then [] else [CreateCb p apiVersion])
  /\ schemaFile (this w0)
     = (if String.eqb (extname env p) ".json" then VStr p else VStr "")
  /\ Doc.apiVersion (this w0) = apiVersion
  /\ shaveDownToSpec (this w0)
     = VObj [("openapi", VStr "3.0.0"); ("info", info);
             ("servers", VUndefined); ("paths", VObj []);
             ("components", VUndefined); ("security", VUndefined);
             ("tags", VUndefined); ("externalDocs", VUndefined)].
Proof.
  unfold effective_config, constructor.
  destruct (require env _) as [inc|]; [|discriminate].
  intros Hcfg. rewrite Hcfg. clear Hcfg.
  unfold prepareFiles, docs_dir. cbv zeta.
  pose proof (Persistence.resolved_path_truthy apiVersion (projectRoot env)
                cfg) as Hp.
  set (p := schemaFilePath_of apiVersion (projectRoot env) cfg) in *.
  set (d := (projectRoot env ++ "/" ++ _ ++ "/")%string).
  cbn [truthy] in Hp. apply negb_true_iff in Hp.
  destruct (String.eqb (extname env p) ".json") eqn:Hext;
    destruct (existsSync env d); simpl;
    try destruct (mkdirSync_ok env d); simpl;
    try discriminate;
    intros Hc; injection Hc as <-; rewrite !exec_gets; simpl;
    rewrite ?Hp; simpl;
    try destruct (existsSync env p); simpl;
    repeat split; reflexivity.
Qed.

Definition settled_project : Env :=
  Posix.platform ["/srv/app/themis/"; "/srv/app/themis/spec.v1.json"].

(** Constructing over a project whose directory and file exist: nothing
    is created and nothing is written. *)
Lemma bootstrap_footprint_witness :
  exists w0,
    constructor settled_project "v1" Persistence.pets_info VUndefined
    = Some w0
    /\ disk_effects w0 = [] /\ pending w0 = [].
Proof.
  destruct (constructor settled_project "v1" Persistence.pets_info
                        VUndefined)
    as [w0|] eqn:Hc; [|vm_compute in Hc; discriminate Hc].
  exists w0. split; [reflexivity|].
  assert (Hcfg : effective_config settled_project VUndefined
                 = Some (VObj [("docsDir", VStr "themis");
                               ("schemaFilePrefix", VStr "spec.")]))
    by (vm_compute; reflexivity).
  pose proof (bootstrap_footprint settled_project "v1"
                Persistence.pets_info VUndefined _ w0 Hcfg Hc)
    as (Hd & Hq & _).
  vm_compute in Hd, Hq. split; [exact Hd | exact Hq].
Defined.

(** A construction throws exactly when the configuration file cannot be
    loaded, or the configuration in effect is nullish, or the directory
    is missing and cannot be created. *)
Theorem constructor_throws_exactly
  (env : Env) (apiVersion : string) (info config : value) :
  constructor env apiVersion info config = None
  <-> match effective_config env config with
      | None => True
      | Some cfg =>
          existsSync env (docs_dir env cfg) = false
          /\ mkdirSync_ok env (docs_dir env cfg) = false
      end.
Proof.
  unfold effective_config, constructor.
  destruct (require env _) as [inc|]; [|tauto].
  destruct (checkAndConstructConfig _) as [cfg|]; [|tauto].
  unfold prepareFiles, docs_dir. cbv zeta.
  set (d := (projectRoot env ++ "/" ++ _ ++ "/")%string).
  destruct (existsSync env d); simpl.
  - split; [discriminate | intros [H _]; discriminate H].
  - destruct (mkdirSync_ok env d); simpl.
    + split; [discriminate | intros [_ H]; discriminate H].
    + tauto.
Qed.

End Bootstrap.

(* ===================================================================== *)
(** ** Where the document writes                                          *)
(* ===================================================================== *)

Module Safety.

(** An effect a method may add while [schemaFile] is [sf]: a line on the
    console, or a flush write to [sf], which must then be truthy. *)
Definition allowed (sf : value) (e : effect) : Prop :=
  match e with
  | ConsoleLog _ _ _ => True
  | WriteFile q _ (SyncCb _) => q = to_string sf /\ truthy sf = true
  | _ => False
  end.

Definition is_sync (cb : callback) : Prop :=
  match cb with
  | SyncCb _ => True
  | CreateCb _ _ => False
  end.

(** [orderly m]: [m] only adds to the effects and to the pending
    callbacks, what it adds to the effects is allowed, and the callbacks
    it adds are those of flushes. *)
Definition orderly (m : M unit) : Prop :=
  forall w, exists new newp,
    io (exec m w) = (io w ++ new)%list
    /\ pending (exec m w) = (pending w ++ newp)%list
    /\ Forall (allowed (schemaFile (this w))) new
    /\ Forall is_sync newp.

Lemma orderly_ret : orderly (ret tt).
Proof.
  intros w. exists [], []. simpl. rewrite !app_nil_r. repeat split; constructor.
Qed.

Lemma orderly_update (f : Themis -> Themis) : orderly (update f).
Proof.
  intros w. exists [], []. simpl. rewrite !app_nil_r. repeat split; constructor.
Qed.

Lemma orderly_log sev tag msg : orderly (emit (ConsoleLog sev tag msg)).
Proof.
  intros w. exists [ConsoleLog sev tag msg], []. simpl. rewrite app_nil_r.
  repeat split; repeat constructor.
Qed.

Lemma orderly_bind (m k : M unit) :
  preserves schemaFile m -> orderly m -> orderly k -> orderly (m ;; k).
Proof.
  intros Hp Hm Hk w. rewrite exec_bind.
  destruct (Hm w) as (n1 & p1 & Hio1 & Hpe1 & Hal1 & Hsy1).
  destruct (Hk (exec m w)) as (n2 & p2 & Hio2 & Hpe2 & Hal2 & Hsy2).
  exists (n1 ++ n2)%list, (p1 ++ p2)%list.
  rewrite Hio2, Hio1, Hpe2, Hpe1, !app_assoc. repeat split.
  - apply Forall_app. split; [exact Hal1|]. now rewrite <- (Hp w).
  - apply Forall_app. now split.
Qed.

Lemma orderly_gets {B} (f : Themis -> B) (k : B -> M unit) :
  (forall b, orderly (k b)) -> orderly (bind (gets f) k).
Proof. intros H w. apply (H (f (this w)) w). Qed.

Lemma orderly_when (c : bool) (m : M unit) : orderly m -> orderly (when c m).
Proof. intros H. destruct c; [exact H | apply orderly_ret]. Qed.

Lemma orderly_flush (w : World) :
  exists new newp,
    io (exec (converted <- gets shaveDownToSpec ;;
              apiVersion <- gets apiVersion ;;
              schemaFile <- gets schemaFile ;;
              if truthy schemaFile
              then fs_writeFile (to_string schemaFile) converted
                                (SyncCb apiVersion)
              else Log.i ("Sync for specification " ++ apiVersion
                          ++ " skipped.") LOG_TAG) w)
    = (io w ++ new)%list
    /\ pending (exec (converted <- gets shaveDownToSpec ;;
                      apiVersion <- gets apiVersion ;;
                      schemaFile <- gets schemaFile ;;
                      if truthy schemaFile
                      then fs_writeFile (to_string schemaFile) converted
                                        (SyncCb apiVersion)
                      else Log.i ("Sync for specification " ++ apiVersion
                                  ++ " skipped.") LOG_TAG) w)
       = (pending w ++ newp)%list
    /\ Forall (allowed (schemaFile (this w))) new
    /\ Forall is_sync newp.
Proof.
  rewrite !exec_gets.
  destruct (truthy (schemaFile (this w))) eqn:E.
  - do 2 eexists. split; [reflexivity|]. split; [reflexivity|].
    split; repeat constructor. exact E.
  - exists [ConsoleLog SevInfo ("[" ++ LOG_TAG ++ "]:")
              ("Sync for specification " ++ apiVersion (this w)
               ++ " skipped.")], [].
    split; [reflexivity|]. split; [simpl; now rewrite app_nil_r|].
    split; repeat constructor.
Qed.

Lemma orderly_syncWrap (cb : M unit) :
  preserves schemaFile cb -> orderly cb -> orderly (syncWrap (Some cb)).
Proof.
  intros Hp Hc. unfold syncWrap.
  apply orderly_bind; [exact Hp | exact Hc |].
  intros w. apply orderly_flush.
Qed.

Ltac tidy :=
  repeat first
    [ apply orderly_syncWrap; [frame|]
    | apply orderly_gets; intro
    | apply orderly_bind; [frame| |]
    | apply orderly_when
    | apply orderly_update
    | apply orderly_log
    | apply orderly_ret
    | match goal with
      | |- orderly (if ?c then _ else _) => destruct c
      | |- orderly (match ?c with _ => _ end) => destruct c
      end ].

Lemma call_orderly (o : op) : orderly (call o).
Proof. destruct o; try destruct c; open_call; tidy. Qed.

Lemma loadFromFile_orderly (env : Env) : orderly (loadFromFile env).
Proof. unfold loadFromFile, Log.e. tidy. Qed.

Import Bootstrap.

(** [confined p w]: the document knows no file but [p]. *)
Definition confined (p : string) (w : World) : Prop :=
  (schemaFile (this w) = VStr "" \/ schemaFile (this w) = VStr p)
  /\ (forall q a, In (CreateCb q a) (pending w) -> q = p)
  /\ (forall q d cb, In (WriteFile q d cb) (io w) -> q = p).

Lemma callback_eqb_eq (a b : callback) : callback_eqb a b = true -> a = b.
Proof.
  destruct a, b; simpl; try discriminate.
  - intros H. apply andb_true_iff in H as [H1 H2].
    apply String.eqb_eq in H1, H2. now subst.
  - intros H. apply String.eqb_eq in H. now subst.
Qed.

Lemma existsb_pending (cb : callback) (l : list callback) :
  existsb (callback_eqb cb) l = true -> In cb l.
Proof.
  intros H. apply existsb_exists in H as (x & Hin & Heq).
  apply callback_eqb_eq in Heq. now subst.
Qed.

Lemma In_remove_first (x cb : callback) (l : list callback) :
  In x (remove_first cb l) -> In x l.
Proof.
  induction l as [|y l IH]; simpl; [tauto|].
  destruct (callback_eqb y cb); simpl; tauto.
Qed.

Lemma orderly_confined (p : string) (m : M unit) (w : World) :
  orderly m -> preserves schemaFile m ->
  confined p w -> confined p (exec m w).
Proof.
  intros Ho Hp (Hsf & Hpe & Hio). unfold confined.
  destruct (Ho w) as (new & newp & -> & -> & Hal & Hsy).
  rewrite (Hp w). split; [exact Hsf|]. split.
  - intros q a Hin. apply in_app_or in Hin as [Hin | Hin]; [eauto|].
    rewrite Forall_forall in Hsy. now apply Hsy in Hin.
  - intros q d cb Hin. apply in_app_or in Hin as [Hin | Hin]; [eauto|].
    rewrite Forall_forall in Hal. apply Hal in Hin.
    destruct cb; simpl in Hin; [contradiction|].
    destruct Hin as [-> Ht].
    destruct Hsf as [E | E]; rewrite E in *; [discriminate Ht | reflexivity].
Qed.

Lemma confined_log (p : string) sev tag msg (w : World) :
  confined p w -> confined p (exec (emit (ConsoleLog sev tag msg)) w).
Proof.
  apply orderly_confined; [apply orderly_log | apply preserves_emit].
Qed.

Lemma confined_fewer_pending (p : string) (w : World) (l : list callback) :
  (forall x, In x l -> In x (pending w)) ->
  confined p w -> confined p (mkWorld (this w) (io w) l).
Proof.
  intros Hl (Hsf & Hpe & Hio). repeat split; trivial.
  intros q a Hin. eauto.
Qed.

Lemma confined_file_set (p : string) (w : World) :
  confined p w ->
  confined p (exec (update (with_schemaFile (VStr p))) w).
Proof. intros (Hsf & Hpe & Hio). repeat split; trivial. now right. Qed.

Lemma settle_confined (p : string) (cb : callback) (err : bool) (w : World) :
  confined p w -> confined p (exec (settle cb err) w).
Proof.
  intros Hw. unfold settle, exec at 1.
  destruct (existsb (callback_eqb cb) (pending w)) eqn:E; [|exact Hw].
  apply existsb_pending in E.
  assert (Hw' : confined p (mkWorld (this w) (io w)
                              (remove_first cb (pending w))))
    by (apply confined_fewer_pending;
        [intros x; apply In_remove_first | exact Hw]).
  fold (exec (run_callback cb err)
          (mkWorld (this w) (io w) (remove_first cb (pending w)))).
  destruct cb as [q0 a0 | a0]; cbn [run_callback].
  - assert (q0 = p) as -> by (destruct Hw as (_ & Hpe & _); eauto).
    destruct err.
    + now apply confined_log.
    + rewrite exec_bind. now apply confined_log, confined_file_set.
  - rewrite exec_bind. destruct err; now apply confined_log, confined_log.
Qed.

Lemma step_confined (env : Env) (p : string) (e : event) (w : World) :
  confined p w -> confined p (exec (step env e) w).
Proof.
  destruct e as [o | | cb err]; simpl.
  - apply orderly_confined; [apply call_orderly | apply call_keeps_schemaFile].
  - apply orderly_confined;
      [apply loadFromFile_orderly
      | apply Persistence.loadFromFile_keeps_schemaFile].
  - apply settle_confined.
Qed.

Lemma run_confined (env : Env) (p : string) (es : list event) :
  forall w, confined p w -> confined p (run env es w).
Proof.
  induction es as [|e es IH]; intros w Hw; [exact Hw|].
  change (run env (e :: es) w) with (run env es (exec (step env e) w)).
  apply IH. now apply step_confined.
Qed.

(** From construction on, whatever is called and whichever writes
    complete or fail, [schemaFile] is either empty or the path resolved at
    bootstrap, and every write the document dispatches, the bootstrap's
    and the flushes', goes to that path. *)
Theorem writes_stay_in_the_resolved_file
  (env : Env) (apiVersion : string) (info config cfg : value)
  (w0 : World) (es : list event) :
  effective_config env config = Some cfg ->
  constructor env apiVersion info config = Some w0 ->
  let p := schemaFilePath_of apiVersion (projectRoot env) cfg in
  (schemaFile (this (run env es w0)) = VStr ""
   \/ schemaFile (this (run env es w0)) = VStr p)
  /\ (forall q d cb, In (WriteFile q d cb) (io (run env es w0)) -> q = p).
Proof.
  intros Hcfg Hc p.
  destruct (Bootstrap.bootstrap_effects _ _ _ _ _ _ Hcfg Hc)
    as (Hd & Hq & Hsf).
  fold p in Hd, Hq, Hsf.
  assert (H0 : confined p w0).
  { split; [|split].
    - rewrite Hsf. destruct (String.eqb _ _); tauto.
    - intros q a Hin. rewrite Hq in Hin.
      destruct (_ && _); simpl in Hin; [contradiction|].
      destruct Hin as [[= <- _] | []]. reflexivity.
    - intros q d cb Hin.
      assert (Hin' : In (WriteFile q d cb) (Bootstrap.disk_effects w0))
        by (apply filter_In; now split).
      rewrite Hd in Hin'. apply in_app_or in Hin' as [Hin' | Hin'].
      + destruct (existsSync env _); simpl in Hin';
          [contradiction | destruct Hin' as [Hx | []]; discriminate Hx].
      + destruct (_ && _); simpl in Hin'; [contradiction|].
        destruct Hin' as [[= <- _ _] | []]. reflexivity. }
  destruct (run_confined env p es w0 H0) as (Hs & _ & Hw).
  split; [exact Hs | exact Hw].
Qed.

Definition busy_session : list event :=
  [Call (Path "/pets" (VObj []));
   Settle (CreateCb "/srv/app/themis/spec.v1.json" "v1") false;
   Call (Describe [("tags", VArr [VObj [("name", VStr "pets")]])]);
   Reload;
   Settle (SyncCb "v1") true].

Lemma writes_stay_witness :
  exists w0,
    constructor Tags.office "v1" Persistence.pets_info VUndefined = Some w0
    /\ forall q d cb,
         In (WriteFile q d cb) (io (run Tags.office busy_session w0)) ->
         q = "/srv/app/themis/spec.v1.json".
Proof.
  destruct (constructor Tags.office "v1" Persistence.pets_info VUndefined)
    as [w0|] eqn:Hc; [|vm_compute in Hc; discriminate Hc].
  exists w0. split; [reflexivity|].
  assert (Hcfg : effective_config Tags.office VUndefined
                 = Some (VObj [("docsDir", VStr "themis");
                               ("schemaFilePrefix", VStr "spec.")]))
    by (vm_compute; reflexivity).
  exact (proj2 (writes_stay_in_the_resolved_file Tags.office "v1"
                  Persistence.pets_info VUndefined _ w0 busy_session
                  Hcfg Hc)).
Defined.

End Safety.

(* ===================================================================== *)
(** ** How often an operation flushes, and what it leaves alone           *)
(* ===================================================================== *)

Module Surface.

(** [counts n m]: with a file to write to, [m] dispatches [n] flush
    writes. *)
Definition counts (n : nat) (m : M unit) : Prop :=
  forall w, truthy (schemaFile (this w)) = true ->
            length (flushes (exec m w)) = length (flushes w) + n.

Lemma counts_eq (n n' : nat) (m : M unit) :
  counts n m -> n = n' -> counts n' m.
Proof. now intros H <-. Qed.

Lemma counts_ret : counts 0 (ret tt).
Proof. intros w _. change (exec (ret tt) w) with w. lia. Qed.

Lemma counts_update (f : Themis -> Themis) : counts 0 (update f).
Proof.
  intros w _.
  change (flushes (exec (update f) w)) with (flushes w). lia.
Qed.

Lemma counts_gets {B} (n : nat) (f : Themis -> B) (k : B -> M unit) :
  (forall b, counts n (k b)) -> counts n (bind (gets f) k).
Proof. intros H w. apply (H (f (this w)) w). Qed.

Lemma counts_bind (a b : nat) (m k : M unit) :
  preserves schemaFile m -> counts a m -> counts b k ->
  counts (a + b) (m ;; k).
Proof.
  intros Hp Hm Hk w Hw. rewrite exec_bind, Hk, Hm; trivial; [lia|].
  now rewrite Hp.
Qed.

Lemma counts_when (n : nat) (c : bool) (m : M unit) :
  counts n m -> counts (if c then n else 0) (when c m).
Proof. intros H. destruct c; [exact H | apply counts_ret]. Qed.

Lemma counts_syncWrap (n : nat) (cb : M unit) :
  preserves schemaFile cb -> preserves apiVersion cb ->
  counts n cb -> counts (n + 1) (syncWrap (Some cb)).
Proof.
  intros Hp Ha Hc w Hw.
  rewrite syncWrap_writes, length_app, Hc; trivial. simpl. lia.
Qed.

Ltac tally :=
  repeat first
    [ eapply counts_syncWrap; [frame | frame |]
    | eapply counts_gets; intro
    | eapply counts_bind; [frame | |]
    | eapply counts_when
    | apply counts_update
    | apply counts_ret
    | match goal with
      | |- counts _ (if ?c then _ else _) => destruct c
      end ].

(** The number of flush writes one call dispatches when there is a file:
    none for [setOpenapi], one for every other operation, and for
    [describe] one for each of the five sections it forwards to an
    operation that flushes ([info], [servers], [externalDocs],
    [security], [tags]) and one more of its own. *)
Definition flush_count (o : op) : nat :=
  match o with
  | SetOpenapi _ => 0
  | Describe d =>
      let g := get (VObj d) in
      length (filter truthy
                [g "info"; g "servers"; g "externalDocs"; g "security";
                 g "tags"]) + 1
  | _ => 1
  end.

Lemma call_counts (o : op) : counts (flush_count o) (call o).
Proof.
  destruct o as [d| | | | | | | | | | | |c ?|c ? ?].
  1: { cbn [call flush_count]. unfold describe.
       eapply counts_eq.
       - eapply counts_syncWrap; [open_call; frame | open_call; frame |].
         eapply counts_bind; [open_call; frame | |].
         { eapply counts_when. unfold setOpenapi. tally. }
         eapply counts_bind; [open_call; frame | |].
         { eapply counts_when. unfold defineInfo. tally. }
         eapply counts_bind; [open_call; frame | |].
         { eapply counts_when. unfold defineServers. tally. }
         eapply counts_bind; [open_call; frame | |].
         { eapply counts_when. unfold defineExternalDocs. tally. }
         eapply counts_bind; [open_call; frame | |].
         { eapply counts_when. unfold defineSecurityRequirements. tally. }
         eapply counts_when. unfold defineTags. tally.
       - cbv zeta. cbn [filter].
         destruct (truthy (get (VObj d) "openapi")),
           (truthy (get (VObj d) "info")),
           (truthy (get (VObj d) "servers")),
           (truthy (get (VObj d) "externalDocs")),
           (truthy (get (VObj d) "security")),
           (truthy (get (VObj d) "tags")); reflexivity. }
  all: try destruct c; cbn [flush_count]; open_call;
    (eapply counts_eq; [tally | reflexivity]).
Qed.

(** One call dispatches [flush_count] flush writes when the document has
    a file, and none when it has not. *)
Theorem flushes_per_call (o : op) (w : World) :
  length (flushes (exec (call o) w))
  = length (flushes w)
    + (if truthy (schemaFile (this w)) then flush_count o else 0).
Proof.
  destruct (truthy (schemaFile (this w))) eqn:E.
  - now apply call_counts.
  - rewrite call_silent by exact E. apply plus_n_O.
Qed.

Example describe_flushes_three_times :
  flush_count (Describe [("openapi", VStr "3.1.0");
                         ("info", VObj [("title", VStr "Pets")]);
                         ("tags", VArr [])]) = 3.
Proof. reflexivity. Qed.

(** *** Sections *)

Inductive section : Type :=
| SOpenapi | SInfo | SServers | SPaths | SComponents | SSecurity | STags
| SExternalDocs.

Definition read (s : section) : Themis -> value :=
  match s with
  | SOpenapi => openapi
  | SInfo => info
  | SServers => servers
  | SPaths => paths
  | SComponents => components
  | SSecurity => security
  | STags => tags
  | SExternalDocs => externalDocs
  end.

Definition key_of (s : section) : string :=
  match s with
  | SOpenapi => "openapi"
  | SInfo => "info"
  | SServers => "servers"
  | SPaths => "paths"
  | SComponents => "components"
  | SSecurity => "security"
  | STags => "tags"
  | SExternalDocs => "externalDocs"
  end.

Definition same_section (a b : section) : bool :=
  String.eqb (key_of a) (key_of b).

(** The section an operation assigns; [describe] assigns the sections it
    finds truthy in its description, paths and components never. *)
Definition assigns (o : op) (s : section) : bool :=
  match o with
  | Describe d =>
      match s with
      | SPaths | SComponents => false
      | _ => truthy (get (VObj d) (key_of s))
      end
  | SetOpenapi _ => same_section s SOpenapi
  | DefineInfo _ => same_section s SInfo
  | DefineServers _ | Server _ => same_section s SServers
  | DefineExternalDocs _ => same_section s SExternalDocs
  | DefineSecurityRequirements _ | SecurityRequirement _ =>
      same_section s SSecurity
  | DefineTags _ => same_section s STags
  | DefinePaths _ | Path _ _ => same_section s SPaths
  | DefineComponents _ | DefineIn _ _ | ComponentIn _ _ _ =>
      same_section s SComponents
  end.

Lemma call_frame (o : op) (s : section) :
  assigns o s = false -> preserves (read s) (call o).
Proof.
  intros H.
  destruct o as [d| | | | | | | | | | | |c ?|c ? ?].
  1: { cbn [call]. unfold describe. apply preserves_syncWrap.
       destruct s; cbn [assigns key_of] in H;
         repeat (apply preserves_bind;
                 [first [ solve [apply preserves_when; open_call; frame]
                        | rewrite H; apply preserves_ret ] |]);
         first [ solve [apply preserves_when; open_call; frame]
               | rewrite H; apply preserves_ret ]. }
  all: destruct s; try discriminate H; try destruct c; open_call; frame.
Qed.

Lemma settle_only_sets_the_file (cb : callback) (err : bool) (w : World) :
  with_schemaFile (schemaFile (this w)) (this (exec (settle cb err) w))
  = this w.
Proof.
  unfold settle, exec.
  destruct (existsb (callback_eqb cb) (pending w)).
  - destruct cb, err; simpl; now destruct (this w).
  - simpl. now destruct (this w).
Qed.

(** An event that leaves the section [s] alone: a call of an operation
    that does not assign it, or a write completion. *)
Definition spares (s : section) (e : event) : bool :=
  match e with
  | Call o => negb (assigns o s)
  | Settle _ _ => true
  | Reload => false
  end.

(** Each operation changes only the section it is for: along any sequence
    of calls of operations that do not assign a section, interleaved with
    write completions, that section stays as it was. *)
Theorem sections_are_independent
  (env : Env) (s : section) (es : list event) :
  forallb (spares s) es = true ->
  forall w, read s (this (run env es w)) = read s (this w).
Proof.
  induction es as [|e es IH]; intros Hes w; [reflexivity|].
  apply andb_true_iff in Hes as [He Hes].
  change (run env (e :: es) w) with (run env es (exec (step env e) w)).
  rewrite (IH Hes). destruct e as [o | | cb err]; simpl in *.
  - apply call_frame. now apply negb_true_iff.
  - discriminate He.
  - rewrite <- (settle_only_sets_the_file cb err w).
    now destruct s, (this (exec (settle cb err) w)).
Qed.

Lemma sections_witness :
  read SPaths
    (this (run Tags.office
             [Call (DefineTags (VArr [Merging.tag_pets]));
              Settle (SyncCb "v1") false;
              Call (Describe [("info", VObj [("title", VStr "Pets")])]);
              Call (ComponentIn Schemas "Pet" (VObj []))]
             Merging.pets_world))
  = VObj Merging.pets_paths.
Proof.
  apply (sections_are_independent Tags.office SPaths
           [Call (DefineTags (VArr [Merging.tag_pets]));
            Settle (SyncCb "v1") false;
            Call (Describe [("info", VObj [("title", VStr "Pets")])]);
            Call (ComponentIn Schemas "Pet" (VObj []))]).
  reflexivity.
Defined.

(** No event changes [apiVersion]: not a call, not a reload, not a write
    completion; and a write completion changes no field of the instance
    other than [schemaFile]. *)
Theorem bookkeeping_is_kept_apart (env : Env) (es : list event) (w : World) :
  apiVersion (this (run env es w)) = apiVersion (this w)
  /\ (forall cb err,
        with_schemaFile (schemaFile (this w))
                        (this (exec (settle cb err) w)) = this w).
Proof.
  split; [|intros; apply settle_only_sets_the_file].
  revert w. induction es as [|e es IH]; intros w; [reflexivity|].
  change (run env (e :: es) w) with (run env es (exec (step env e) w)).
  rewrite IH. destruct e as [o | | cb err]; simpl.
  - apply call_keeps_apiVersion.
  - assert (H : preserves apiVersion (loadFromFile env))
      by (unfold loadFromFile, Log.e; frame).
    apply H.
  - rewrite <- (settle_only_sets_the_file cb err w).
    now destruct (this (exec (settle cb err) w)).
Qed.

(** *** What a flush writes *)

(** With a file to write to, the last write a flushing operation
    dispatches carries the projection of the document as the operation
    left it (all eight sections, the new state and not the old one) and
    goes to [schemaFile]. *)
Theorem flush_carries_the_new_document (o : op) (w : World) :
  Persistence.flushing o = true ->
  truthy (schemaFile (this w)) = true ->
  last (flushes (exec (call o) w)) (MkdirSync "")
  = WriteFile (to_string (schemaFile (this w)))
              (shaveDownToSpec (this (exec (call o) w)))
              (SyncCb (apiVersion (this w))).
Proof.
  intros Hf Hw.
  destruct (Persistence.call_writes o w Hf Hw) as [older ->].
  apply last_last.
Qed.

Lemma flush_carries_witness :
  last (flushes (exec (call (Path "/owners" (VObj [])))
                      Reloading.loaded_world)) (MkdirSync "")
  = WriteFile "/srv/app/themis/spec.v1.json"
      (shaveDownToSpec
         (this (exec (call (Path "/owners" (VObj [])))
                     Reloading.loaded_world)))
      (SyncCb "").
Proof.
  apply (flush_carries_the_new_document (Path "/owners" (VObj []))
           Reloading.loaded_world); reflexivity.
Defined.

End Surface.

(* ===================================================================== *)
(** ** Reloading, and reading back what was defined                       *)
(* ===================================================================== *)

Module RoundTrips.

Import Reloading Merging.

Lemma loadFromFile_loaded (env : Env) (w : World) (X : value) :
  require env (module_path w) = Some X ->
  nullish X = false ->
  this (exec (loadFromFile env) w)
  = mkThemis (get X "openapi") (get X "info") (get X "servers")
             (get X "paths") (get X "components") (get X "security")
             (get X "tags") (get X "externalDocs")
             (apiVersion (this w)) (schemaFile (this w)).
Proof.
  intros H Hn. unfold loadFromFile, module_path in *.
  cbv [exec bind gets]. simpl. rewrite H, Hn. reflexivity.
Qed.

Lemma loadFromFile_kept (env : Env) (w : World) :
  match require env (module_path w) with
  | Some X => nullish X = true
  | None => True
  end ->
  this (exec (loadFromFile env) w) = this w.
Proof.
  intros H. unfold loadFromFile, module_path in *.
  cbv [exec bind gets]. simpl.
  destruct (require env _) as [X|]; [rewrite H|]; reflexivity.
Qed.

(** [n] reloads in a row. *)
Fixpoint reloads (env : Env) (n : nat) : M unit :=
  match n with
  | O => ret tt
  | S n' => loadFromFile env ;; reloads env n'
  end.

Lemma loadFromFile_keeps_the_module (env : Env) (w : World) :
  module_path (exec (loadFromFile env) w) = module_path w.
Proof.
  unfold module_path.
  now rewrite (Persistence.loadFromFile_keeps_schemaFile env w).
Qed.

Lemma loadFromFile_twice (env : Env) (w : World) :
  this (exec (loadFromFile env) (exec (loadFromFile env) w))
  = this (exec (loadFromFile env) w).
Proof.
  pose proof (loadFromFile_keeps_the_module env w) as Hm.
  destruct (require env (module_path w)) as [X|] eqn:HX.
  - destruct (nullish X) eqn:Hn.
    + apply loadFromFile_kept. now rewrite Hm, HX.
    + rewrite (loadFromFile_loaded env (exec (loadFromFile env) w) X);
        [|now rewrite Hm|exact Hn].
      now rewrite (loadFromFile_loaded env w X HX Hn).
  - apply loadFromFile_kept. now rewrite Hm, HX.
Qed.

(** A reload never changes where the document is stored, so it reads the
    same file again: any number of reloads in a row, one at least, leaves
    the instance as a single reload does, whether the load succeeds,
    yields [null] or throws. *)
Theorem reload_is_idempotent (env : Env) (n : nat) (w : World) :
  this (exec (reloads env (S n)) w) = this (exec (loadFromFile env) w)
  /\ schemaFile (this (exec (loadFromFile env) w)) = schemaFile (this w)
  /\ apiVersion (this (exec (loadFromFile env) w)) = apiVersion (this w).
Proof.
  split; [|split].
  - revert w. induction n as [|n IH]; intros w.
    + cbn [reloads]. now rewrite exec_bind.
    + change (reloads env (S (S n)))
        with (loadFromFile env ;; reloads env (S n)).
      rewrite exec_bind, IH. apply loadFromFile_twice.
  - apply Persistence.loadFromFile_keeps_schemaFile.
  - assert (H : preserves apiVersion (loadFromFile env))
      by (unfold loadFromFile, Log.e; frame).
    apply H.
Qed.






(** *** Components and paths *)

Definition token (c : category) : string :=
  match c with
  | Callbacks => "callbacks"
  | Examples => "examples"
  | Headers => "headers"
  | Links => "links"
  | Parameters => "parameters"
  | RequestBodies => "requestBodies"
  | Responses => "responses"
  | Schemas => "schemas"
  | SecuritySchemes => "securitySchemes"
  end.


Lemma componentIn_token (c : category) (key : string) (v : value) :
  componentIn c key v = defineCategory (token c) (VObj [(key, v)]).
Proof. now destruct c. Qed.

Lemma components_defineCategory (cat : string) (frag : value) (w : World) :
  components (this (exec (defineCategory cat frag) w))
  = if truthy (components (this w))
    then set (components (this w)) cat
           (merge (get_opt (components (this w)) cat ?? VArr []) frag)
    else VObj [(cat, frag)].
Proof.
  unfold defineCategory. rewrite this_syncWrap, exec_gets.
  now destruct (truthy (components (this w))).
Qed.

Lemma read_category (cat key : string) (w : World) :
  fst (getCategory cat key w)
  = if truthy (get_opt (components (this w)) cat)
    then get (get_opt (components (this w)) cat) key
    else VObj [].
Proof. reflexivity. Qed.



Lemma merge_one_entry (fs : list (string * value)) (k : string) (v : value) :
  merge (VObj fs) (VObj [(k, v)])
  = VObj (assign k (match lookup k fs with
                    | Some old => merge old v
                    | None => v
                    end) fs).
Proof. reflexivity. Qed.

(** Defining one more component in a category that already has entries,
    under the merge contract of the engine: a key that is new reads back
    as given, a key that was defined reads back as the merge of the old
    definition with the new one (it is not replaced), every other key of
    the category and every other category read as before. *)
Theorem later_definition_keeps_the_others
  (c : category) (key : string) (v : value) (w : World)
  (cs fs : list (string * value)) :
  components (this w) = VObj cs ->
  lookup (token c) cs = Some (VObj fs) ->
  fst (getCategory (token c) key (exec (componentIn c key v) w))
  = match lookup key fs with
    | Some old => merge old v
    | None => v
    end
  /\ (forall key', key' <> key ->
        fst (getCategory (token c) key' (exec (componentIn c key v) w))
        = fst (getCategory (token c) key' w))
  /\ (forall cat key', cat <> token c ->
        fst (getCategory cat key' (exec (componentIn c key v) w))
        = fst (getCategory cat key' w)).
Proof.
  intros Hcs Hfs. rewrite componentIn_token.
  assert (H1 : components (this (exec (defineCategory (token c)
                                         (VObj [(key, v)])) w))
               = VObj (assign (token c)
                         (VObj (assign key
                                  (match lookup key fs with
                                   | Some old => merge old v
                                   | None => v
                                   end) fs)) cs)).
  { rewrite components_defineCategory, Hcs. cbn [truthy get_opt nullish get].
    rewrite Hfs. cbn [coalesce nullish]. now rewrite merge_one_entry. }
  repeat split.
  - rewrite read_category, H1. cbn [get_opt nullish get].
    rewrite lookup_assign_same. cbn [truthy get].
    now rewrite lookup_assign_same.
  - intros key' Hk. rewrite !read_category, H1, Hcs.
    cbn [get_opt nullish get]. rewrite lookup_assign_same, Hfs.
    cbn [truthy get]. now rewrite lookup_assign_other by congruence.
  - intros cat key' Hk. rewrite !read_category, H1, Hcs.
    cbn [get_opt nullish get].
    now rewrite lookup_assign_other by congruence.
Qed.

Lemma later_definition_witness :
  fst (getCategory (token Schemas) "Pet"
         (exec (componentIn Schemas "Owner" (VObj [])) Registry.pet_store))
  = fst (getCategory (token Schemas) "Pet" Registry.pet_store).
Proof.
  apply (proj1 (proj2 (later_definition_keeps_the_others Schemas "Owner"
                         (VObj []) Registry.pet_store _ _
                         eq_refl eq_refl)) "Pet").
  discriminate.
Defined.

(** The same for paths: after [path(p, item)] on a path map, [p] reads
    back as [item] when it was not there (so on a new document always),
    as the merge of the old item with [item] when it was, and every other
    path reads as before. *)
Theorem path_reads_back
  (p : string) (item : value) (w : World) (ps : list (string * value)) :
  paths (this w) = VObj ps ->
  get (paths (this (exec (path p item) w))) p
  = match lookup p ps with
    | Some old => merge old item
    | None => item
    end
  /\ (forall q, q <> p ->
        get (paths (this (exec (path p item) w))) q = get (VObj ps) q).
Proof.
  intros Hps. unfold path. rewrite this_definePaths, Hps.
  cbn [coalesce nullish paths with_paths]. rewrite merge_one_entry.
  split.
  - cbn [get]. now rewrite lookup_assign_same.
  - intros q Hq. cbn [get]. now rewrite lookup_assign_other by congruence.
Qed.

Lemma path_reads_back_witness :
  get (paths (this (exec (path "/owners" (VObj [("get", VObj [])]))
                         pets_world))) "/owners"
  = VObj [("get", VObj [])].
Proof.
  apply (proj1 (path_reads_back "/owners" (VObj [("get", VObj [])])
                  pets_world pets_paths eq_refl)).
Defined.

(** The three sequence operations append: when the field and the fragment
    are sequences (an absent field and a nullish fragment being empty
    ones), the field afterwards holds its former elements followed by the
    fragment's, of whatever lengths. *)
Theorem sequences_append (v : value) (w : World) :
  is_seq v = true ->
  (is_seq (tags (this w)) = true ->
   tags (this (exec (defineTags v) w))
   = VArr (Tags.contents (tags (this w)) ++ Tags.contents v))
  /\ (is_seq (servers (this w)) = true ->
      servers (this (exec (defineServers v) w))
      = VArr (Tags.contents (servers (this w)) ++ Tags.contents v))
  /\ (is_seq (security (this w)) = true ->
      security (this (exec (defineSecurityRequirements v) w))
      = VArr (Tags.contents (security (this w)) ++ Tags.contents v)).
Proof.
  intros Hv. repeat split; intros Hw.
  - rewrite tags_defineTags, (Tags.coalesce_contents _ Hw),
      (Tags.coalesce_contents _ Hv). apply merge_wrapped_seq.
  - rewrite servers_defineServers, (Tags.coalesce_contents _ Hw),
      (Tags.coalesce_contents _ Hv). apply merge_wrapped_seq.
  - rewrite security_defineSecurityRequirements,
      (Tags.coalesce_contents _ Hw), (Tags.coalesce_contents _ Hv).
    apply merge_wrapped_seq.
Qed.

Lemma sequences_append_witness :
  servers (this (exec (defineServers
                         (VArr [VObj [("url", VStr "/a")];
                                VObj [("url", VStr "/b")]]))
                      (mkWorld (with_servers
                                  (VArr [VObj [("url", VStr "/")]]) fresh)
                               [] [])))
  = VArr ([VObj [("url", VStr "/")]]
          ++ [VObj [("url", VStr "/a")]; VObj [("url", VStr "/b")]]).
Proof.
  apply (proj1 (proj2 (sequences_append
                         (VArr [VObj [("url", VStr "/a")];
                                VObj [("url", VStr "/b")]])
                         (mkWorld (with_servers
                                     (VArr [VObj [("url", VStr "/")]])
                                     fresh) [] [])
                         eq_refl))).
  reflexivity.
Defined.

End RoundTrips.

(* ===================================================================== *)
(** ** Finding the project root                                           *)
(* ===================================================================== *)

Module Misc.

Section ProjectRoot.

(** The platform: [fs.existsSync], [path.join], the [root] and the [dir]
    of [path.parse], and [__dirname]. *)
Variable existsSync : string -> bool.
Variable join : string -> string -> string.
Variable root_of : string -> string.
Variable dir_of : string -> string.
Variable dirname : string.

(** The test that ends the walk at [p]. *)
Definition stops (p : string) : bool :=
  existsSync (join p "package.json") || String.eqb p (root_of p).

(** [getProjectRoot]; [None] as [startPath] is the omitted argument, and
    [None] as result is a walk that has not ended within [fuel] calls. *)
Fixpoint getProjectRoot (fuel : nat) (startPath : option string)
  : option string :=
  match fuel with
  | O => None
  | S fuel' =>
      let _startPath :=
        match startPath with Some p => p | None => dirname end in
      if existsSync (join _startPath "package.json")
         || String.eqb _startPath (root_of _startPath)
      then Some _startPath
      else getProjectRoot fuel' (Some (dir_of _startPath))
  end.

(** The [n]-th directory above [p]. *)
Fixpoint ancestor (n : nat) (p : string) : string :=
  match n with
  | O => p
  | S n' => ancestor n' (dir_of p)
  end.

Definition start_of (startPath : option string) : string :=
  match startPath with Some p => p | None => dirname end.

Lemma getProjectRoot_found (n : nat) :
  forall fuel startPath,
    n < fuel ->
    stops (ancestor n (start_of startPath)) = true ->
    (forall m, m < n -> stops (ancestor m (start_of startPath)) = false) ->
    getProjectRoot fuel startPath = Some (ancestor n (start_of startPath)).
Proof.
  induction n as [|n IH]; intros fuel startPath Hlt Hstop Hmin;
    (destruct fuel as [|fuel]; [lia|]); simpl.
  - fold (start_of startPath). unfold stops in Hstop. simpl in Hstop.
    now rewrite Hstop.
  - fold (start_of startPath).
    pose proof (Hmin 0 ltac:(lia)) as H0. unfold stops in H0.
    simpl in H0. rewrite H0.
    apply (IH fuel (Some (dir_of (start_of startPath)))); [lia | exact Hstop |].
    intros m Hm. apply (Hmin (S m)). lia.
Qed.

Lemma getProjectRoot_sound (fuel : nat) :
  forall startPath r,
    getProjectRoot fuel startPath = Some r ->
    exists n,
      n < fuel
      /\ r = ancestor n (start_of startPath)
      /\ stops r = true
      /\ (forall m, m < n -> stops (ancestor m (start_of startPath)) = false).
Proof.
  induction fuel as [|fuel IH]; intros startPath r H; [discriminate H|].
  simpl in H. fold (start_of startPath) in H.
  destruct (existsSync (join (start_of startPath) "package.json")
            || String.eqb (start_of startPath)
                          (root_of (start_of startPath))) eqn:E.
  - injection H as <-. exists 0. repeat split; [lia | exact E |].
    intros m Hm. lia.
  - apply IH in H as (n & Hlt & Hr & Hs & Hmin).
    exists (S n). repeat split; [lia | exact Hr | exact Hs |].
    intros [|m] Hm; [exact E|]. apply Hmin. lia.
Qed.

(** [getProjectRoot] returns the nearest directory, the start included,
    that holds a [package.json] or is its own root: a result is such a
    directory and none nearer is; and when the [n]-th directory above the
    start is the nearest such, any walk of more than [n] steps returns
    it. *)
Theorem getProjectRoot_nearest (fuel : nat) (startPath : option string) :
  (forall r,
     getProjectRoot fuel startPath = Some r ->
     exists n,
       n < fuel
       /\ r = ancestor n (start_of startPath)
       /\ stops r = true
       /\ (forall m, m < n ->
             stops (ancestor m (start_of startPath)) = false))
  /\ (forall n,
        n < fuel ->
        stops (ancestor n (start_of startPath)) = true ->
        (forall m, m < n ->
           stops (ancestor m (start_of startPath)) = false) ->
        getProjectRoot fuel startPath
        = Some (ancestor n (start_of startPath))).
Proof.
  split.
  - apply getProjectRoot_sound.
  - intros n. apply getProjectRoot_found.
Qed.

End ProjectRoot.

(** A small tree: [/srv/app] holds the [package.json]. *)
Definition up (p : string) : string :=
  if String.eqb p "/srv/app/src/core" then "/srv/app/src"
  else if String.eqb p "/srv/app/src" then "/srv/app"
  else if String.eqb p "/srv/app" then "/srv"
  else "/".

Lemma getProjectRoot_witness :
  getProjectRoot (fun p => String.eqb p "/srv/app/package.json")
                 (fun a b => a ++ "/" ++ b) (fun _ => "/") up
                 "/srv/app/src/core" 10 None
  = Some "/srv/app".
Proof.
  apply (proj2 (getProjectRoot_nearest
                  (fun p => String.eqb p "/srv/app/package.json")
                  (fun a b => a ++ "/" ++ b) (fun _ => "/") up
                  "/srv/app/src/core" 10 None) 2).
  - lia.
  - reflexivity.
  - intros [|[|m]] Hm; [reflexivity | reflexivity | lia].
Defined.

End Misc.
